(** * A shallow embedding of the rule-based price-bulletin parser (main.py)

    The development follows the source file top-down: Python's string
    primitives, a small backtracking matcher for the regular expressions
    the parser uses, the commodity-name normalizer, the row parser, the
    line loop with its category tracker and duplicate merge, and the
    market-block extractor.  The theorems come after the definitions.

    Modelling scope.  Text is a [string] of single-byte characters.  The
    character predicates (whitespace, digit, word character, case
    mapping) are Python's on the 7-bit range; a byte above 127 is an
    opaque symbol: no case, not whitespace, not alphanumeric.  A price is
    the exact decimal its token denotes (Python stores the nearest
    binary64 to it). *)

From Stdlib Require Import String Ascii List Bool Arith NArith Lia.
Import ListNotations.
Open Scope string_scope.
Open Scope list_scope.
Open Scope nat_scope.

Infix "+++" := String.append (right associativity, at level 60).

(* ===================================================================== *)
(** ** Python string primitives *)
(* ===================================================================== *)

Module Py.

Definition code (c : ascii) : nat := nat_of_ascii c.

Definition in_range (lo hi : nat) (c : ascii) : bool :=
  (lo <=? code c) && (code c <=? hi).

(** [str.isspace] on one character: TAB, LF, VT, FF, CR, FS, GS, RS, US
    and the space. *)
Definition is_space (c : ascii) : bool :=
  in_range 9 13 c || in_range 28 32 c.

Definition is_digit (c : ascii) : bool := in_range 48 57 c.
Definition is_upper (c : ascii) : bool := in_range 65 90 c.
Definition is_lower (c : ascii) : bool := in_range 97 122 c.

(** The class [\w]. *)
Definition is_word (c : ascii) : bool :=
  is_digit c || is_upper c || is_lower c || Ascii.eqb c "_".

Definition upper_char (c : ascii) : ascii :=
  if is_lower c then ascii_of_nat (code c - 32) else c.

Definition lower_char (c : ascii) : ascii :=
  if is_upper c then ascii_of_nat (code c + 32) else c.

Fixpoint map_chars (f : ascii -> ascii) (s : string) : string :=
  match s with
  | EmptyString => EmptyString
  | String c s' => String (f c) (map_chars f s')
  end.

(** [s.upper()] and [s.lower()]. *)
Definition upper (s : string) : string := map_chars upper_char s.
Definition lower (s : string) : string := map_chars lower_char s.

(** [sub in s]. *)
Fixpoint contains (sub s : string) : bool :=
  prefix sub s ||
  match s with
  | EmptyString => false
  | String _ s' => contains sub s'
  end.

Fixpoint take (n : nat) (s : string) : string :=
  match n, s with
  | S n', String c s' => String c (take n' s')
  | _, _ => EmptyString
  end.

Fixpoint drop (n : nat) (s : string) : string :=
  match n, s with
  | S n', String _ s' => drop n' s'
  | _, _ => s
  end.

Fixpoint lstrip_by (f : ascii -> bool) (s : string) : string :=
  match s with
  | String c s' => if f c then lstrip_by f s' else s
  | EmptyString => EmptyString
  end.

Fixpoint rstrip_by (f : ascii -> bool) (s : string) : string :=
  match s with
  | EmptyString => EmptyString
  | String c s' =>
      match rstrip_by f s' with
      | EmptyString => if f c then EmptyString else String c EmptyString
      | t => String c t
      end
  end.

Definition strip_by (f : ascii -> bool) (s : string) : string :=
  rstrip_by f (lstrip_by f s).

(** [s.strip()]. *)
Definition strip (s : string) : string := strip_by is_space s.

Fixpoint mem_char (c : ascii) (set : string) : bool :=
  match set with
  | EmptyString => false
  | String d set' => Ascii.eqb c d || mem_char c set'
  end.

(** [s.strip(chars)]. *)
Definition strip_chars (chars s : string) : string :=
  strip_by (fun c => mem_char c chars) s.

Definition cons_head (c : ascii) (l : list string) : list string :=
  match l with
  | h :: t => String c h :: t
  | [] => [String c EmptyString]
  end.

(** [s.split(sep)] for a one-character separator: empty fields are kept. *)
Fixpoint split_char (sep : ascii) (s : string) : list string :=
  match s with
  | EmptyString => [EmptyString]
  | String c s' =>
      if Ascii.eqb c sep then EmptyString :: split_char sep s'
      else cons_head c (split_char sep s')
  end.

(** [s.split()]: the maximal runs of non-whitespace characters.  The
    helper returns the word being read and the words after it. *)
Fixpoint words_aux (s : string) : string * list string :=
  match s with
  | EmptyString => (EmptyString, [])
  | String c s' =>
      let '(w, ws) := words_aux s' in
      if is_space c then
        (EmptyString, match w with EmptyString => ws | _ => w :: ws end)
      else (String c w, ws)
  end.

Definition split_ws (s : string) : list string :=
  let '(w, ws) := words_aux s in
  match w with EmptyString => ws | _ => w :: ws end.

(** [sep.join(l)]. *)
Definition join (sep : string) (l : list string) : string := String.concat sep l.

Fixpoint interleave (new s : string) : string :=
  match s with
  | EmptyString => new
  | String c s' => new ++ String c (interleave new s')
  end.

(** [s.replace(old, new)]: the non-overlapping occurrences of [old], left
    to right.  [skip] counts the characters of an occurrence still to be
    passed over. *)
Fixpoint replace_aux (old new : string) (skip : nat) (s : string) : string :=
  match s with
  | EmptyString => EmptyString
  | String c s' =>
      match skip with
      | S k => replace_aux old new k s'
      | 0 =>
          if prefix old s then new ++ replace_aux old new (String.length old - 1) s'
          else String c (replace_aux old new 0 s')
      end
  end.

Definition replace (old new s : string) : string :=
  match old with
  | EmptyString => interleave new s
  | _ => replace_aux old new 0 s
  end.

(** Equality of characters up to case, for the IGNORECASE flag. *)
Definition eqb_nocase (a b : ascii) : bool :=
  Ascii.eqb (lower_char a) (lower_char b).

End Py.

(* ===================================================================== *)
(** ** Regular expressions: a backtracking matcher in the manner of [re] *)
(* ===================================================================== *)

Module Re.

(** The constructs the source's patterns use.  A literal is a sequence of
    [Chr]; [x+] is [Seq x (Star true x)]; a bounded repetition is written
    out with [Seq] and [Alt].  [Star false] is the lazy star.  The source's
    patterns have at most one capturing group, [Cap].

    Two things are particular to the patterns at hand and are proved of
    them further down: no star iterates over a body that can match the
    empty string ([patterns_star_bodies_consume]), and no pattern given to
    [re.sub] or [re.split] can match the empty string
    ([substitution_patterns_non_nullable]), so that the rules of [re] for
    empty matches never come into play. *)
Inductive regex : Type :=
| Eps
| Chr (f : ascii -> bool)
| Seq (r1 r2 : regex)
| Alt (r1 r2 : regex)
| Star (greedy : bool) (r : regex)
| Cap (r : regex)
| Bol            (* ^  *)
| Eol            (* $  without MULTILINE *)
| EndZ           (* \Z *)
| WordB.         (* \b *)

(** A position in the subject: its index, the character before it and the
    text from it on. *)
Record pos : Type := mkpos { idx : nat; prev : option ascii; rest : string }.

(** Group 1, when set: where it starts and its text. *)
Definition caps : Type := option (nat * string).

Definition word_before (p : pos) : bool :=
  match prev p with Some a => Py.is_word a | None => false end.

Definition word_after (p : pos) : bool :=
  match rest p with String a _ => Py.is_word a | EmptyString => false end.

Definition at_eol (p : pos) : bool :=
  match rest p with
  | EmptyString => true
  | String a EmptyString => Ascii.eqb a "010"
  | _ => false
  end.

Definition at_end (p : pos) : bool :=
  match rest p with EmptyString => true | _ => false end.

Notation "a <|> b" := (match a with Some x => Some x | None => b end)
  (at level 60, right associativity, only parsing).

Section Engine.

Variable R : Type.

Definition cont : Type := pos -> caps -> option R.

Section Loop.

Variable body : pos -> caps -> cont -> option R.

(** The iterations of a star.  An iteration that consumes nothing ends the
    loop, so [fuel], one more than the characters left, is never used up
    while an iteration is still possible. *)
Fixpoint star_loop (greedy : bool) (fuel : nat) (p : pos) (c : caps)
  (k : cont) {struct fuel} : option R :=
  match fuel with
  | 0 => k p c
  | S fuel' =>
      if greedy then
        body p c (fun p' c' =>
          if idx p <? idx p' then star_loop greedy fuel' p' c' k else None)
        <|> k p c
      else
        k p c
        <|> body p c (fun p' c' =>
          if idx p <? idx p' then star_loop greedy fuel' p' c' k else None)
  end.

End Loop.

(** [rmatch r p c k]: match [r] at [p], then go on with [k]; alternatives
    are tried in the order of the pattern, as [re] does. *)
Fixpoint rmatch (r : regex) (p : pos) (c : caps) (k : cont) : option R :=
  match r with
  | Eps => k p c
  | Chr f =>
      match rest p with
      | String a s => if f a then k (mkpos (S (idx p)) (Some a) s) c else None
      | EmptyString => None
      end
  | Seq r1 r2 => rmatch r1 p c (fun p' c' => rmatch r2 p' c' k)
  | Alt r1 r2 => rmatch r1 p c k <|> rmatch r2 p c k
  | Star g r' => star_loop (rmatch r') g (S (String.length (rest p))) p c k
  | Cap r' =>
      rmatch r' p c (fun p' _ =>
        k p' (Some (idx p, Py.take (idx p' - idx p) (rest p))))
  | Bol => if idx p =? 0 then k p c else None
  | Eol => if at_eol p then k p c else None
  | EndZ => if at_end p then k p c else None
  | WordB => if xorb (word_before p) (word_after p) then k p c else None
  end.

End Engine.

Arguments star_loop {R} body greedy fuel p c k.
Arguments rmatch {R} r p c k.

(** A match: where it starts, where it ends, and group 1. *)
Record rmatch_result : Type :=
  mkmatch { m_start : nat; m_end : nat; m_group1 : option string }.

Definition group1 (c : caps) : option string :=
  match c with Some (_, t) => Some t | None => None end.

(** One attempt at a position. *)
Definition match_at (r : regex) (p : pos) : option rmatch_result :=
  rmatch r p None (fun p' c' => Some (mkmatch (idx p) (idx p') (group1 c'))).

(** One attempt that must consume at least one character. *)
Definition match_at_nonempty (r : regex) (p : pos) : option rmatch_result :=
  rmatch r p None (fun p' c' =>
    if idx p <? idx p' then Some (mkmatch (idx p) (idx p') (group1 c'))
    else None).

(** [re.search]: the first position, from the left, where an attempt
    succeeds. *)
Fixpoint search_from (r : regex) (i : nat) (pv : option ascii) (s : string)
  : option rmatch_result :=
  match match_at r (mkpos i pv s) with
  | Some m => Some m
  | None =>
      match s with
      | EmptyString => None
      | String a s' => search_from r (S i) (Some a) s'
      end
  end.

Definition search (r : regex) (s : string) : option rmatch_result :=
  search_from r 0 None s.

(** [re.sub(r, '', s)] for a pattern that cannot match the empty string:
    every non-overlapping match, from the left, is dropped.  [skip] counts
    the characters of the current match still to be dropped. *)
Fixpoint remove_from (r : regex) (skip i : nat) (pv : option ascii)
  (s : string) : string :=
  match s with
  | EmptyString => EmptyString
  | String a s' =>
      match skip with
      | S k => remove_from r k (S i) (Some a) s'
      | 0 =>
          match match_at_nonempty r (mkpos i pv s) with
          | Some m => remove_from r (m_end m - i - 1) (S i) (Some a) s'
          | None => String a (remove_from r 0 (S i) (Some a) s')
          end
      end
  end.

Definition sub_remove (r : regex) (s : string) : string :=
  remove_from r 0 0 None s.

(** [re.split(r, s)] for a pattern without groups that cannot match the
    empty string. *)
Fixpoint split_from (r : regex) (skip i : nat) (pv : option ascii)
  (s : string) : list string :=
  match s with
  | EmptyString => [EmptyString]
  | String a s' =>
      match skip with
      | S k => split_from r k (S i) (Some a) s'
      | 0 =>
          match match_at_nonempty r (mkpos i pv s) with
          | Some m =>
              EmptyString :: split_from r (m_end m - i - 1) (S i) (Some a) s'
          | None => Py.cons_head a (split_from r 0 (S i) (Some a) s')
          end
      end
  end.

Definition split (r : regex) (s : string) : list string :=
  split_from r 0 0 None s.

(** *** Pattern syntax *)

Fixpoint lit (s : string) : regex :=
  match s with
  | EmptyString => Eps
  | String a EmptyString => Chr (Ascii.eqb a)
  | String a s' => Seq (Chr (Ascii.eqb a)) (lit s')
  end.

(** A literal under IGNORECASE. *)
Fixpoint lit_i (s : string) : regex :=
  match s with
  | EmptyString => Eps
  | String a EmptyString => Chr (Py.eqb_nocase a)
  | String a s' => Seq (Chr (Py.eqb_nocase a)) (lit_i s')
  end.

Definition digit : regex := Chr Py.is_digit.            (* \d *)
Definition space : regex := Chr Py.is_space.            (* \s *)
Definition dot : regex := Chr (fun a => negb (Ascii.eqb a "010")).  (* . *)
Definition dot_all : regex := Chr (fun _ => true).      (* . under DOTALL *)
Definition plus (g : bool) (r : regex) : regex := Seq r (Star g r).
Definition opt (r : regex) : regex := Alt r Eps.        (* r? *)

Fixpoint alts (l : list regex) (last : regex) : regex :=
  match l with
  | [] => last
  | r :: l' => Alt r (alts l' last)
  end.

End Re.

(* ===================================================================== *)
(** ** The data model *)
(* ===================================================================== *)

(** A decimal number: [mantissa / 10 ^ scale].  The token [45.50] is
    [mantissa = 4550], [scale = 2]. *)
Record decimal : Type := mkdecimal { mantissa : N; scale : nat }.

(** class PriceRow: [origin], [unit] and [price] are [Optional]. *)
Record PriceRow : Type := mkPriceRow {
  category : string;
  commodity : string;
  origin : option string;
  unit : option string;
  price : option decimal
}.

Definition KNOWN_CATEGORIES : list string :=
  [ "IMPORTED COMMERCIAL RICE"; "LOCAL COMMERCIAL RICE"; "CORN PRODUCTS";
    "FISH PRODUCTS"; "BEEF MEAT PRODUCTS"; "PORK MEAT PRODUCTS";
    "OTHER LIVESTOCK MEAT PRODUCTS"; "POULTRY PRODUCTS";
    "LOWLAND VEGETABLES"; "HIGHLAND VEGETABLES"; "SPICES";
    "FRUITS"; "OTHER BASIC COMMODITIES" ].

(* ===================================================================== *)
(** ** normalize_commodity_name *)
(* ===================================================================== *)

(** A rule block either returns a canonical name or falls through. *)
Definition ret_if (b : bool) (v : string) : option string :=
  if b then Some v else None.

Fixpoint first_of (l : list (option string)) : option string :=
  match l with
  | [] => None
  | Some v :: _ => Some v
  | None :: l' => first_of l'
  end.

Definition under (b : bool) (rules : list (option string)) : option string :=
  if b then first_of rules else None.

Section Rules.

Variables upper_cat upper_name : string.

Let cat_has (k : string) : bool := Py.contains k upper_cat.
Let has (k : string) : bool := Py.contains k upper_name.

Definition corn_rules : option string :=
  under (cat_has "CORN")
    [ under (has "GRITS")
        [ ret_if (has "WHITE") "Corn Grits White";
          ret_if (has "YELLOW") "Corn Grits Yellow";
          ret_if (has "FEED GRADE") "Corn Grits Feed Grade" ];
      ret_if (has "CRACKED") "Corn Cracked Yellow";
      under (has "COB")
        [ ret_if (has "WHITE" || has "GLUTINOUS") "Corn Cob White";
          ret_if (has "YELLOW" || has "SWEET") "Corn Cob Yellow" ] ].

Definition rice_rules : option string :=
  under (cat_has "RICE")
    [ ret_if (has "SPECIAL") "Special White Rice";
      ret_if (has "PREMIUM") "Premium Rice";
      ret_if (has "WELL MILLED") "Well Milled Rice";
      ret_if (has "REGULAR MILLED") "Regular Milled Rice";
      ret_if (has "GLUTINOUS") "Glutinous Rice";
      ret_if (has "JASPONICA" || has "JAPONICA") "Jasponica Rice";
      ret_if (has "BASMATI") "Basmati Rice" ].

Definition vegetable_rules : option string :=
  under (cat_has "VEGETABLES" || cat_has "SPICES")
    [ under (has "BELL PEPPER")
        [ ret_if (has "RED") "Bell Pepper Red";
          ret_if (has "GREEN") "Bell Pepper Green" ];
      under (has "CABBAGE")
        [ ret_if (has "SCORPIO") "Cabbage Scorpio";
          ret_if (has "RARE BALL") "Cabbage Rare Ball";
          ret_if (has "WONDER BALL") "Cabbage Wonder Ball" ];
      under (has "ONION")
        [ ret_if (has "RED") "Red Onion";
          ret_if (has "WHITE") "White Onion" ];
      under (has "CHILLI")
        [ ret_if (has "RED" || has "TINGALA") "Chilli Red";
          ret_if (has "GREEN" || has "PANIGANG") "Chilli Green" ] ].

Definition fish_rules : option string :=
  under (cat_has "FISH")
    [ ret_if (has "BANGUS") "Bangus";
      ret_if (has "TILAPIA") "Tilapia";
      ret_if (has "GALUNGGONG") "Galunggong";
      ret_if (has "ALUMAHAN") "Alumahan";
      ret_if (has "SQUID") "Squid";
      ret_if (has "SALMON BELLY") "Salmon Belly";
      ret_if (has "SALMON HEAD") "Salmon Head";
      ret_if (has "PAMPANO") "Pampano" ].

Definition meat_rules : option string :=
  under (cat_has "MEAT" || cat_has "POULTRY")
    [ ret_if (has "WHOLE CHICKEN") "Whole Chicken";
      ret_if (has "CHICKEN EGG") "Chicken Egg";
      ret_if (has "BEEF BRISKET") "Beef Brisket";
      ret_if (has "PORK BELLY") "Pork Belly";
      ret_if (has "PORK CHOP") "Pork Chop" ].

Definition other_basic_rules : option string :=
  under (cat_has "OTHER BASIC")
    [ under (has "COOKING OIL")
        [ ret_if (has "PALM") "Cooking Oil (Palm)";
          ret_if (has "COCONUT") "Cooking Oil (Coconut)";
          Some "Cooking Oil" ];
      under (has "SUGAR")
        [ ret_if (has "REFINED") "Sugar (Refined)";
          ret_if (has "WASHED") "Sugar (Washed)";
          ret_if (has "BROWN") "Sugar (Brown)" ];
      under (has "SALT")
        [ ret_if (has "IODIZED") "Salt (Iodized)";
          ret_if (has "ROCK") "Salt (Rock)" ] ].

Definition specific_rules : option string :=
  first_of [ corn_rules; rice_rules; vegetable_rules; fish_rules;
             meat_rules; other_basic_rules ].

End Rules.

Definition remove_words : list string :=
  [ "Magnolia"; "Bounty Fresh"; "Unbranded"; "Fresh"; "Fully Dressed";
    "Jolly Brand"; "Jolly"; "Palm Olein"; "Spring"; "Minola"; "Brand";
    "Local"; "Imported"; "frozen"; "chilled"; "whole round"; "medium";
    "large"; "small"; "lean meat"; "tapadera"; "meat with bones";
    "food grade"; "feed grade" ].

(** [[\x00-\x1F\x7F-\x9F]] *)
Definition control_re : Re.regex :=
  Re.Chr (fun a => Py.in_range 0 31 a || Py.in_range 127 159 a).

(** [\((.*?)\)] *)
Definition parens_re : Re.regex :=
  Re.Seq (Re.lit "(") (Re.Seq (Re.Cap (Re.Star false Re.dot)) (Re.lit ")")).

(** [\b{word}\b] under IGNORECASE *)
Definition word_re (word : string) : Re.regex :=
  Re.Seq Re.WordB (Re.Seq (Re.lit_i word) Re.WordB).

(** [\d+[-\s]*\d*\s*(pcs|kg|g|ml|liter|bottle).*] under IGNORECASE *)
Definition unit_suffix_re : Re.regex :=
  Re.Seq (Re.plus true Re.digit)
 (Re.Seq (Re.Star true (Re.Chr (fun a => Ascii.eqb a "-" || Py.is_space a)))
 (Re.Seq (Re.Star true Re.digit)
 (Re.Seq (Re.Star true Re.space)
 (Re.Seq (Re.Cap (Re.alts [ Re.lit_i "pcs"; Re.lit_i "kg"; Re.lit_i "g";
                            Re.lit_i "ml"; Re.lit_i "liter" ]
                          (Re.lit_i "bottle")))
         (Re.Star true Re.dot))))).

Definition fallback_cleaning (name_clean : string) : string :=
  let name := Re.sub_remove parens_re name_clean in
  let name :=
    fold_left (fun name word => Re.sub_remove (word_re word) name)
              remove_words name in
  let name := Re.sub_remove unit_suffix_re name in
  Py.strip_chars " -," (Py.join " " (Py.split_ws name)).

Definition normalize_commodity_name (raw_name category : string) : string :=
  let name_clean := Re.sub_remove control_re raw_name in
  let name_clean := Py.join " " (Py.split_ws name_clean) in
  let upper_name := Py.upper name_clean in
  let upper_cat := Py.upper category in
  match specific_rules upper_cat upper_name with
  | Some canonical => canonical
  | None => fallback_cleaning name_clean
  end.

(* ===================================================================== *)
(** ** determine_origin, determine_unit *)
(* ===================================================================== *)

Definition determine_origin (raw_line category : string) : string :=
  let line_upper := Py.upper raw_line in
  let cat_upper := Py.upper category in
  if Py.contains "IMPORTED" line_upper || Py.contains "IMPORTED" cat_upper
  then "Imported"
  else "Local".

Definition kg_keywords : list string :=
  [ "kg"; "kilo"; "broken"; "meat"; "fish"; "vegetable"; "fruit"; "spice";
    "sugar"; "salt"; "corn" ].

Definition determine_unit (raw_line category : string) : option string :=
  let line_lower := Py.lower raw_line in
  if Py.contains "bottle" line_lower || Py.contains "liter" line_lower
     || Py.contains "ml" line_lower
  then Some "L"
  else if Py.contains "egg" (Py.lower category) || Py.contains "pc" line_lower
  then Some "pc"
  else if existsb (fun x => Py.contains x line_lower) kg_keywords
  then Some "kg"
  else None.

(* ===================================================================== *)
(** ** parse_smart_row *)
(* ===================================================================== *)

(** [\d{1,3}] *)
Definition digits_1_3 : Re.regex :=
  Re.Seq Re.digit (Re.opt (Re.Seq Re.digit (Re.opt Re.digit))).

(** [\d{1,3}(?:,\d{3})*\.\d{2}] *)
Definition number_re : Re.regex :=
  Re.Seq digits_1_3
 (Re.Seq (Re.Star true
            (Re.Seq (Re.lit ",") (Re.Seq Re.digit (Re.Seq Re.digit Re.digit))))
 (Re.Seq (Re.lit ".") (Re.Seq Re.digit Re.digit))).

(** [\d{1,3}(?:,\d{3})*\.\d{2}|\$n/a\$|-] *)
Definition token_re : Re.regex :=
  Re.Alt number_re (Re.Alt (Re.lit "$n/a$") (Re.lit "-")).

(** [(?:^|\s)(\d{1,3}(?:,\d{3})*\.\d{2}|\$n/a\$|-)\s*$] *)
Definition price_re : Re.regex :=
  Re.Seq (Re.Alt Re.Bol Re.space)
 (Re.Seq (Re.Cap token_re)
 (Re.Seq (Re.Star true Re.space) Re.Eol)).

(** [re.search] with the price pattern: [start()] and [group(1)]. *)
Definition price_match (line : string) : option (nat * string) :=
  match Re.search price_re line with
  | Some m =>
      match Re.m_group1 m with
      | Some token => Some (Re.m_start m, token)
      | None => None
      end
  | None => None
  end.

Definition digit_value (c : ascii) : N := N_of_ascii c - 48.

Fixpoint read_digits (acc : N) (n : nat) (s : string) : N * nat * string :=
  match s with
  | String c s' =>
      if Py.is_digit c then read_digits (acc * 10 + digit_value c) (S n) s'
      else (acc, n, s)
  | EmptyString => (acc, n, s)
  end.

(** [float(s)] on the plain decimal literals: digits, optionally a point
    and more digits, with a digit on at least one side.  [None] is the
    ValueError.  Python's [float] accepts more (signs, exponents, padding,
    inf and nan); none of it is ever passed here. *)
Definition py_float (s : string) : option decimal :=
  let '(int_part, n1, r1) := read_digits 0 0 s in
  match r1 with
  | EmptyString =>
      if n1 =? 0 then None else Some (mkdecimal int_part 0)
  | String "." r2 =>
      let '(m, n2, r3) := read_digits int_part 0 r2 in
      match r3 with
      | EmptyString =>
          if n1 + n2 =? 0 then None else Some (mkdecimal m n2)
      | _ => None
      end
  | _ => None
  end.

Definition is_sentinel (price_str : string) : bool :=
  String.eqb price_str "-" || String.eqb price_str "$n/a$".

(** Step 5: [final_price] starts as None; the conversion is attempted on
    everything but the two sentinels, and a failure is swallowed. *)
Definition convert_price (price_str : string) : option decimal :=
  if negb (is_sentinel price_str) then
    match py_float price_str with
    | Some value => Some value
    | None => None                       (* except: pass *)
    end
  else None.

Definition clean_category (current_category : string) : string :=
  Py.strip (Py.replace "LOCAL " "" (Py.replace "IMPORTED " "" current_category)).

Definition parse_smart_row (line current_category : string)
  : option PriceRow :=
  let line := Py.strip line in
  match price_match line with
  | None => None
  | Some (start, token) =>
      let price_str := Py.replace "," "" token in
      let raw_name_part := Py.strip (Py.take start line) in
      let origin := determine_origin raw_name_part current_category in
      let clean_name := normalize_commodity_name raw_name_part current_category in
      if String.length clean_name <? 2 then None
      else
        let unit := determine_unit raw_name_part current_category in
        let final_price := convert_price price_str in
        let clean_cat := clean_category current_category in
        Some (mkPriceRow clean_cat clean_name (Some origin) unit final_price)
  end.

(* ===================================================================== *)
(** ** parse_text_to_json: the line loop *)
(* ===================================================================== *)

Definition UNKNOWN : string := "UNKNOWN".

(** The first known category contained in the upper-cased line. *)
Definition detect_category (line : string) : option string :=
  find (fun cat => Py.contains cat (Py.upper line)) KNOWN_CATEGORIES.

Definition noise_markers : list string :=
  [ "Source:"; "Note:"; "Prevailing"; "Retail Price"; "Page"; "Department of" ].

Definition is_noise (line : string) : bool :=
  existsb (fun x => Py.contains x line) noise_markers.

Definition option_eqb (a b : option string) : bool :=
  match a, b with
  | Some x, Some y => String.eqb x y
  | None, None => true
  | _, _ => false
  end.

Definition same_key (existing row : PriceRow) : bool :=
  String.eqb (category existing) (category row)
  && String.eqb (commodity existing) (commodity row)
  && option_eqb (origin existing) (origin row).

Definition set_price (r : PriceRow) (p : option decimal) : PriceRow :=
  mkPriceRow (category r) (commodity r) (origin r) (unit r) p.

(** What the scan does to the first row with the key of [row]. *)
Definition absorb (existing row : PriceRow) : PriceRow :=
  match price existing, price row with
  | None, Some v => set_price existing (Some v)
  | _, _ => existing
  end.

(** The scan over [price_data_list]: [Some] of the updated list when a
    duplicate is found (the scan stops there), [None] otherwise. *)
Fixpoint scan_duplicate (row : PriceRow) (l : list PriceRow)
  : option (list PriceRow) :=
  match l with
  | [] => None
  | existing :: l' =>
      if same_key existing row then Some (absorb existing row :: l')
      else
        match scan_duplicate row l' with
        | Some l'' => Some (existing :: l'')
        | None => None
        end
  end.

Definition fold_in (l : list PriceRow) (row : PriceRow) : list PriceRow :=
  match scan_duplicate row l with
  | Some l' => l'                        (* is_duplicate *)
  | None => l ++ [row]                   (* append *)
  end.

(** The loop's state: [current_category] and [price_data_list]. *)
Definition loop_state : Type := (string * list PriceRow)%type.

(** One pass of the loop body. *)
Definition process_line (st : loop_state) (line : string) : loop_state :=
  let '(current_category, price_data_list) := st in
  let line := Py.strip line in
  match line with
  | EmptyString => st                                   (* continue *)
  | _ =>
      match detect_category line with
      | Some cat => (cat, price_data_list)              (* header *)
      | None =>
          if is_noise line then st                      (* continue *)
          else if negb (String.eqb current_category UNKNOWN) then
            match parse_smart_row line current_category with
            | Some row => (current_category, fold_in price_data_list row)
            | None => st
            end
          else st
      end
  end.

Definition process_lines (st : loop_state) (lines : list string)
  : loop_state :=
  fold_left process_line lines st.

(** "Row Processing": the loop over [raw_text.split('\n')]. *)
Definition row_processing (raw_text : string) : list PriceRow :=
  snd (process_lines (UNKNOWN, []) (Py.split_char "010" raw_text)).

(* ===================================================================== *)
(** ** parse_text_to_json: the market block *)
(* ===================================================================== *)

(** [(?:d\)|Covered markets:)\s*(1\..+?)(?:Page|\Z)] under DOTALL and
    IGNORECASE *)
Definition market_re : Re.regex :=
  Re.Seq (Re.Alt (Re.lit_i "d)") (Re.lit_i "Covered markets:"))
 (Re.Seq (Re.Star true Re.space)
 (Re.Seq (Re.Cap (Re.Seq (Re.lit_i "1.") (Re.plus false Re.dot_all)))
         (Re.Alt (Re.lit_i "Page") Re.EndZ))).

(** [\s*\d+\.\s*] *)
Definition marker_re : Re.regex :=
  Re.Seq (Re.Star true Re.space)
 (Re.Seq (Re.plus true Re.digit)
 (Re.Seq (Re.lit ".") (Re.Star true Re.space))).

(** [re.sub(r'[\n\r]', ' ', m)] *)
Definition newlines_to_spaces (m : string) : string :=
  Py.map_chars
    (fun a => if Ascii.eqb a "010" || Ascii.eqb a "013" then " "%char else a) m.

(** The comprehension's condition: [m.strip() and len(m) > 3]. *)
Definition keep_fragment (m : string) : bool :=
  negb (String.eqb (Py.strip m) "") && (3 <? String.length m).

Definition clean_fragment (m : string) : string :=
  Py.strip (newlines_to_spaces m).

(** A dict with [None] values, as the list of its keys in insertion
    order. *)
Definition dict_add_key (d : list string) (k : string) : list string :=
  if existsb (String.eqb k) d then d else d ++ [k].

(** [list(dict.fromkeys(l))] *)
Definition dict_fromkeys (l : list string) : list string :=
  fold_left dict_add_key l [].

Definition market_block (raw_text : string) : option string :=
  match Re.search market_re raw_text with
  | Some m => Re.m_group1 m
  | None => None
  end.

Definition markets_of_block (raw_block : string) : list string :=
  let raw_markets := Re.split marker_re raw_block in
  dict_fromkeys (map clean_fragment (filter keep_fragment raw_markets)).

(** "Market Extraction" *)
Definition market_extraction (raw_text : string) : list string :=
  match market_block raw_text with
  | Some raw_block => markets_of_block raw_block
  | None => []
  end.

Record ParseResult : Type := mkParseResult {
  covered_markets : list string;
  price_data : list PriceRow
}.

Definition parse_text_to_json (raw_text : string) : ParseResult :=
  mkParseResult (market_extraction raw_text) (row_processing raw_text).

(* ===================================================================== *)
(** ** What the matcher's answers mean *)
(* ===================================================================== *)

Module ReSem.

Import Re.

(** [path r p c p' c']: one way through [r] leads from position [p] with
    captures [c] to position [p'] with captures [c']. *)
Inductive path : regex -> pos -> caps -> pos -> caps -> Prop :=
| path_eps p c : path Eps p c p c
| path_chr f p c a s :
    rest p = String a s -> f a = true ->
    path (Chr f) p c (mkpos (S (idx p)) (Some a) s) c
| path_seq r1 r2 p c p1 c1 p2 c2 :
    path r1 p c p1 c1 -> path r2 p1 c1 p2 c2 ->
    path (Seq r1 r2) p c p2 c2
| path_alt_l r1 r2 p c p' c' :
    path r1 p c p' c' -> path (Alt r1 r2) p c p' c'
| path_alt_r r1 r2 p c p' c' :
    path r2 p c p' c' -> path (Alt r1 r2) p c p' c'
| path_star_stop g r p c : path (Star g r) p c p c
| path_star_step g r p c p1 c1 p2 c2 :
    path r p c p1 c1 -> path (Star g r) p1 c1 p2 c2 ->
    path (Star g r) p c p2 c2
| path_cap r p c p' c' :
    path r p c p' c' ->
    path (Cap r) p c p' (Some (idx p, Py.take (idx p' - idx p) (rest p)))
| path_bol p c : idx p = 0 -> path Bol p c p c
| path_eol p c : at_eol p = true -> path Eol p c p c
| path_endz p c : at_end p = true -> path EndZ p c p c
| path_wordb p c :
    xorb (word_before p) (word_after p) = true -> path WordB p c p c.

(** Concatenations of words of a language. *)
Inductive star (L : string -> Prop) : string -> Prop :=
| star_nil : star L EmptyString
| star_app w1 w2 : L w1 -> star L w2 -> star L (w1 +++ w2).

(** The words a pattern can consume. *)
Fixpoint lang (r : regex) (w : string) : Prop :=
  match r with
  | Chr f => exists a, w = String a EmptyString /\ f a = true
  | Seq r1 r2 => exists w1 w2, w = w1 +++ w2 /\ lang r1 w1 /\ lang r2 w2
  | Alt r1 r2 => lang r1 w \/ lang r2 w
  | Star _ r' => star (lang r') w
  | Cap r' => lang r' w
  | Eps | Bol | Eol | EndZ | WordB => w = EmptyString
  end.

Fixpoint has_cap (r : regex) : bool :=
  match r with
  | Cap _ => true
  | Seq r1 r2 | Alt r1 r2 => has_cap r1 || has_cap r2
  | Star _ r' => has_cap r'
  | _ => false
  end.

End ReSem.

(** Whether a pattern can match without consuming a character. *)
Fixpoint nullable (r : Re.regex) : bool :=
  match r with
  | Re.Chr _ => false
  | Re.Seq r1 r2 => nullable r1 && nullable r2
  | Re.Alt r1 r2 => nullable r1 || nullable r2
  | Re.Cap r' => nullable r'
  | _ => true
  end.

(** Every star of a pattern iterates over a body that consumes. *)
Fixpoint star_bodies_consume (r : Re.regex) : bool :=
  match r with
  | Re.Star _ r' => negb (nullable r') && star_bodies_consume r'
  | Re.Seq r1 r2 | Re.Alt r1 r2 =>
      star_bodies_consume r1 && star_bodies_consume r2
  | Re.Cap r' => star_bodies_consume r'
  | _ => true
  end.

(** The patterns handed to [re.sub] and [re.split]. *)
Definition substitution_patterns : list Re.regex :=
  control_re :: parens_re :: unit_suffix_re :: marker_re
  :: map word_re remove_words.

(* ===================================================================== *)
(** ** Notions the statements use *)
(* ===================================================================== *)

(** The triple the duplicate check compares. *)
Definition key (r : PriceRow) : string * string * option string :=
  (category r, commodity r, origin r).

(** The accepted row with the key of [row], if there is one. *)
Definition accepted (row : PriceRow) (l : list PriceRow) : option PriceRow :=
  find (fun existing => same_key existing row) l.

(** The price recorded for the key of [row]: none yet, or a present one. *)
Definition unsettled (row : PriceRow) (l : list PriceRow) : Prop :=
  forall e, accepted row l = Some e -> price e = None.

Definition settled (row : PriceRow) (v : decimal) (l : list PriceRow)
  : Prop :=
  exists e, accepted row l = Some e /\ price e = Some v.

Definition merge_row (l : list PriceRow) (o : option PriceRow)
  : list PriceRow :=
  match o with
  | Some row => fold_in l row
  | None => l
  end.

(** The row, if any, that one pass of the loop body hands to the duplicate
    check when the current category is [current_category]. *)
Definition row_of_line (current_category line : string) : option PriceRow :=
  let line := Py.strip line in
  match line with
  | EmptyString => None
  | _ =>
      match detect_category line with
      | Some _ => None
      | None =>
          if is_noise line then None
          else if negb (String.eqb current_category UNKNOWN)
          then parse_smart_row line current_category
          else None
      end
  end.

(** [current_category] after one pass of the loop body. *)
Definition category_after (current_category line : string) : string :=
  fst (process_line (current_category, []) line).

(** Line by line, the row each source line parses to. *)
Fixpoint rows_of_lines (current_category : string) (lines : list string)
  : list (option PriceRow) :=
  match lines with
  | [] => []
  | line :: lines' =>
      row_of_line current_category line
      :: rows_of_lines (category_after current_category line) lines'
  end.

Definition line_rows (raw_text : string) : list (option PriceRow) :=
  rows_of_lines UNKNOWN (Py.split_char "010" raw_text).

(** [raw_name_part]: the text before the match, stripped. *)
Definition name_segment (line : string) (start : nat) : string :=
  Py.strip (Py.take start (Py.strip line)).

(** The row [parse_smart_row] builds once the name has passed the length
    check. *)
Definition built_row (line current_category : string) (start : nat)
  (token : string) : PriceRow :=
  let raw_name_part := name_segment line start in
  mkPriceRow (clean_category current_category)
             (normalize_commodity_name raw_name_part current_category)
             (Some (determine_origin raw_name_part current_category))
             (determine_unit raw_name_part current_category)
             (convert_price (Py.replace "," "" token)).

(** *** Character classes over a string *)

Fixpoint all_chars (f : ascii -> bool) (s : string) : bool :=
  match s with
  | EmptyString => true
  | String c s' => f c && all_chars f s'
  end.

(** Keeping the characters of a class. *)
Fixpoint keep_chars (f : ascii -> bool) (s : string) : string :=
  match s with
  | EmptyString => EmptyString
  | String c s' => if f c then String c (keep_chars f s') else keep_chars f s'
  end.

Definition not_comma (c : ascii) : bool := negb (Ascii.eqb c ",").

(** No line break in a name. *)
Definition no_line_break (name : string) : bool :=
  all_chars (fun a => negb (Ascii.eqb a "010" || Ascii.eqb a "013")) name.

(** Every character, for proofs by cases on one. *)
Definition all_ascii : list ascii := map ascii_of_nat (seq 0 256).

(** *** The market list, in the words of the specification *)

(** A fragment is discarded when it is empty or blank, or when it has 3
    characters or fewer. *)
Definition discarded (m : string) : bool :=
  all_chars Py.is_space m || (String.length m <=? 3).

(** Exact duplicates go, the first occurrence of each name stays where it
    is. *)
Fixpoint distinct_first_seen (l : list string) : list string :=
  match l with
  | [] => []
  | x :: l' =>
      x :: filter (fun y => negb (String.eqb y x)) (distinct_first_seen l')
  end.

Definition markets_as_specified (raw_block : string) : list string :=
  distinct_first_seen
    (map clean_fragment
         (filter (fun m => negb (discarded m))
                 (Re.split marker_re raw_block))).

(** *** Case-insensitive containment, in the words of the specification *)

(** Some stretch of [s] is [k] up to the case of its letters. *)
Definition occurs_nocase (k s : string) : Prop :=
  exists pre mid post,
    s = pre +++ mid +++ post /\ Py.lower mid = Py.lower k.

(** *** Sample rows and texts *)

(** A text from its lines. *)
Definition LF : string := String "010" EmptyString.
Definition text_of (lines : list string) : string := Py.join LF lines.

Definition mango_without_price : PriceRow :=
  mkPriceRow "FRUITS" "Mango" (Some "Local") None None.

Definition mango_with_price : PriceRow :=
  mkPriceRow "FRUITS" "Mango" (Some "Local") (Some "kg")
             (Some (mkdecimal 12000 2)).

Definition mango_at (v : decimal) : PriceRow :=
  mkPriceRow "FRUITS" "Mango" (Some "Local") None (Some v).

Definition priced_then_unpriced : string :=
  text_of [ "FRUITS"; "Mango 120.00"; "Mango -" ].

Definition unpriced_then_priced : string :=
  text_of [ "FRUITS"; "Mango -"; "Mango 120.00" ].

Definition three_mango_lines : string :=
  text_of [ "FRUITS"; "Mango 10.00"; "Mango -"; "Mango 20.00" ].

(** Scenario A: the text, the state with the header active, and the row
    the scenario expects. *)
Definition scenario_A_text : string :=
  text_of [ "RICE"; "Well Milled Rice 45.50"; "" ].

Definition scenario_A_state : loop_state := ("LOCAL COMMERCIAL RICE", []).

Definition scenario_A_expected : PriceRow :=
  mkPriceRow "COMMERCIAL RICE" "Well Milled Rice" (Some "Local") (Some "kg")
             (Some (mkdecimal 4550 2)).

Definition scenario_A_actual : PriceRow :=
  mkPriceRow "COMMERCIAL RICE" "Well Milled Rice" (Some "Local") None
             (Some (mkdecimal 4550 2)).

Definition scenario_A_with_header : string :=
  text_of [ "LOCAL COMMERCIAL RICE"; "RICE"; "Well Milled Rice 45.50"; "" ].

(* ===================================================================== *)
(** ** extract_pdf_content *)
(* ===================================================================== *)

(** [pages] holds, page by page, what [page.extract_text()] returns; the
    empty text is the one the test [if extracted] rejects. *)
Definition extract_pdf_content (pages : list string) : string :=
  fold_left
    (fun text extracted =>
       match extracted with
       | EmptyString => text
       | _ => text +++ LF +++ extracted +++ LF
       end)
    pages EmptyString.

(** *** Lines *)

(** The line carries no category label. *)
Definition no_label (line : string) : Prop :=
  detect_category (Py.strip line) = None.

Definition non_empty (line : string) : bool := negb (String.eqb line "").

(** The rows that reach the duplicate check, in the order of their
    lines. *)
Fixpoint emitted (os : list (option PriceRow)) : list PriceRow :=
  match os with
  | [] => []
  | Some row :: os' => row :: emitted os'
  | None :: os' => emitted os'
  end.

(** *** What the output holds *)

(** The category labels as they are stored, the two rice labels falling
    together. *)
Definition stored_categories : list string :=
  [ "COMMERCIAL RICE"; "CORN PRODUCTS"; "FISH PRODUCTS";
    "BEEF MEAT PRODUCTS"; "PORK MEAT PRODUCTS";
    "OTHER LIVESTOCK MEAT PRODUCTS"; "POULTRY PRODUCTS";
    "LOWLAND VEGETABLES"; "HIGHLAND VEGETABLES"; "SPICES"; "FRUITS";
    "OTHER BASIC COMMODITIES" ].



(** The first row of each key, in order. *)
Fixpoint first_of_each_key (rows : list PriceRow) : list PriceRow :=
  match rows with
  | [] => []
  | r :: rows' =>
      r :: filter (fun x => negb (same_key x r)) (first_of_each_key rows')
  end.

(** The first present price among the rows with the key of [row]. *)
Fixpoint first_price (row : PriceRow) (rows : list PriceRow)
  : option decimal :=
  match rows with
  | [] => None
  | r :: rows' =>
      if same_key r row then
        match price r with
        | Some v => Some v
        | None => first_price row rows'
        end
      else first_price row rows'
  end.

(** How the accepted row of a key changes with one more line. *)
Definition accept (row : PriceRow) (acc : option PriceRow)
  (o : option PriceRow) : option PriceRow :=
  match o with
  | Some r =>
      if same_key r row then
        Some (match acc with Some e => absorb e r | None => r end)
      else acc
  | None => acc
  end.

Definition has_key (l : list PriceRow) (row : PriceRow) : bool :=
  existsb (fun e => same_key e row) l.

(** The current category is the sentinel or a known label, and the rows
    accepted so far have the property [P]. *)
Definition loop_invariant (P : PriceRow -> Prop) (st : loop_state) : Prop :=
  (fst st = UNKNOWN \/ In (fst st) KNOWN_CATEGORIES) /\ Forall P (snd st).

(** *** Positions along a subject *)




(** *** Tokens and last characters *)


(** The characters a token is made of. *)
Definition token_char (c : ascii) : bool :=
  Py.is_digit c || Py.mem_char c ",.$n/a-".

Definition not_space (c : ascii) : bool := negb (Py.is_space c).

(** The last character of [s] is in the class [f]. *)
Fixpoint last_is (f : ascii -> bool) (s : string) : bool :=
  match s with
  | EmptyString => false
  | String c EmptyString => f c
  | String _ s' => last_is f s'
  end.

(** A token ends in a digit, a dollar sign or a dash. *)
Definition token_end (c : ascii) : bool :=
  Py.is_digit c || Ascii.eqb c "$" || Ascii.eqb c "-".

(** ** Dates in file names *)

(** A [datetime] at midnight, which is all that [strptime] gives for a
    format without a time, and all that [datetime.min] is. *)
Record datetime : Type := mkdatetime { year : nat; month : nat; day : nat }.

Definition datetime_min : datetime := mkdatetime 1 1 1.

(** [a < b] on datetimes. *)
Definition datetime_ltb (a b : datetime) : bool :=
  (year a <? year b)
  || ((year a =? year b)
      && ((month a <? month b)
          || ((month a =? month b) && (day a <? day b)))).

Definition is_leap (y : nat) : bool :=
  (y mod 4 =? 0) && (negb (y mod 100 =? 0) || (y mod 400 =? 0)).

Definition days_in_month (y m : nat) : nat :=
  match m with
  | 2 => if is_leap y then 29 else 28
  | 4 | 6 | 9 | 11 => 30
  | _ => 31
  end.

(** The constructor [datetime(year, month, day)], whose range checks raise
    [ValueError]. *)
Definition make_datetime (y m d : nat) : option datetime :=
  if (1 <=? y) && (y <? 100 * 100) && (1 <=? m) && (m <=? 12)
     && (1 <=? d) && (d <=? days_in_month y m)
  then Some (mkdatetime y m d)
  else None.

(** *** [datetime.strptime]

    The part of the library's [_strptime] that the source's four formats
    reach, in the C locale: the directives [%B], [%b], [%d] and [%Y], and
    [#], which is no directive.  The library turns a format into a
    pattern, one group of alternatives for each directive, and matches it
    under IGNORECASE at the start of the text. *)
Inductive item : Type :=
| Lit (c : ascii)
| FullMonth      (* %B *)
| AbbrMonth      (* %b *)
| DayOfMonth     (* %d *)
| Year4.         (* %Y *)

Definition directive (d : ascii) : option item :=
  if Ascii.eqb d "B" then Some FullMonth
  else if Ascii.eqb d "b" then Some AbbrMonth
  else if Ascii.eqb d "d" then Some DayOfMonth
  else if Ascii.eqb d "Y" then Some Year4
  else None.

(** [None]: a bad directive, or a stray [%]. *)
Fixpoint compile_format (format : string) : option (list item) :=
  match format with
  | EmptyString => Some []
  | String c format' =>
      if Ascii.eqb c "%" then
        match format' with
        | EmptyString => None
        | String d format'' =>
            match directive d, compile_format format'' with
            | Some it, Some items => Some (it :: items)
            | _, _ => None
            end
        end
      else
        match compile_format format' with
        | Some items => Some (Lit c :: items)
        | None => None
        end
  end.

(** The names of the months, as the locale lists them: index 0 is empty. *)
Definition f_month : list string :=
  [ ""; "january"; "february"; "march"; "april"; "may"; "june"; "july";
    "august"; "september"; "october"; "november"; "december" ].

Definition a_month : list string :=
  [ ""; "jan"; "feb"; "mar"; "apr"; "may"; "jun"; "jul"; "aug"; "sep";
    "oct"; "nov"; "dec" ].

(** The alternatives of a group of names: the names, the longest first,
    in the order of the list among names of one length. *)
Fixpoint insert_by_length (n : string) (l : list string) : list string :=
  match l with
  | [] => [n]
  | x :: l' =>
      if String.length x <? String.length n then n :: l
      else x :: insert_by_length n l'
  end.

Definition longest_first (l : list string) : list string :=
  fold_left (fun acc n => insert_by_length n acc) l [].

Fixpoint index_of (x : string) (l : list string) : option nat :=
  match l with
  | [] => None
  | y :: l' =>
      if String.eqb x y then Some 0
      else match index_of x l' with Some i => Some (S i) | None => None end
  end.

(** What one alternative reads at the start of a text: the text read and
    the text left. *)
Definition reader : Type := string -> option (string * string).

(** A name, under IGNORECASE. *)
Definition read_name (n : string) : reader :=
  fun s =>
    let k := String.length n in
    if String.eqb (Py.lower (Py.take k s)) (Py.lower n)
    then Some (Py.take k s, Py.drop k s)
    else None.

(** One character of each class in turn. *)
Fixpoint read_classes (cs : list (ascii -> bool)) : reader :=
  fun s =>
    match cs with
    | [] => Some (EmptyString, s)
    | f :: cs' =>
        match s with
        | String a s' =>
            if f a then
              match read_classes cs' s' with
              | Some (t, r) => Some (String a t, r)
              | None => None
              end
            else None
        | EmptyString => None
        end
    end.

(** [3[0-1]|[1-2]\d|0[1-9]|[1-9]| [1-9]] *)
Definition day_alternatives : list (list (ascii -> bool)) :=
  [ [Ascii.eqb "3"; Py.in_range 48 49];
    [Py.in_range 49 50; Py.is_digit];
    [Ascii.eqb "0"; Py.in_range 49 57];
    [Py.in_range 49 57];
    [Ascii.eqb " "; Py.in_range 49 57] ].

Definition alternatives (it : item) : list reader :=
  match it with
  | Lit c => [read_classes [Py.eqb_nocase c]]
  | FullMonth => map read_name (longest_first (tl f_month))
  | AbbrMonth => map read_name (longest_first (tl a_month))
  | DayOfMonth => map read_classes day_alternatives
  | Year4 =>
      [read_classes [Py.is_digit; Py.is_digit; Py.is_digit; Py.is_digit]]
  end.

(** [int] of a run of digits, spaces around it left out. *)
Fixpoint digits_value (acc : nat) (s : string) : nat :=
  match s with
  | EmptyString => acc
  | String c s' => digits_value (10 * acc + (Py.code c - 48)) s'
  end.

Definition py_int (s : string) : nat := digits_value 0 (Py.strip s).

(** The groups found: month, day and year. *)
Record found : Type :=
  mkfound { found_month : option nat;
            found_day : option nat;
            found_year : option nat }.

Definition nothing_found : found := mkfound None None None.

Definition store (it : item) (text : string) (f : found) : found :=
  match it with
  | Lit _ => f
  | FullMonth =>
      mkfound (index_of (Py.lower text) f_month) (found_day f) (found_year f)
  | AbbrMonth =>
      mkfound (index_of (Py.lower text) a_month) (found_day f) (found_year f)
  | DayOfMonth => mkfound (found_month f) (Some (py_int text)) (found_year f)
  | Year4 => mkfound (found_month f) (found_day f) (Some (py_int text))
  end.

Fixpoint first_some {A B : Type} (f : A -> option B) (l : list A)
  : option B :=
  match l with
  | [] => None
  | a :: l' => match f a with Some b => Some b | None => first_some f l' end
  end.

(** The match of the pattern of a format at the start of a text: the
    alternatives of a group are tried in their order, the next one when
    the rest of the pattern fails after one. *)
Fixpoint match_items (items : list item) (s : string) (f : found)
  : option (found * string) :=
  match items with
  | [] => Some (f, s)
  | it :: items' =>
      first_some
        (fun rd : reader =>
           match rd s with
           | Some (text, s') => match_items items' s' (store it text f)
           | None => None
           end)
        (alternatives it)
  end.

Definition or_default (d : nat) (o : option nat) : nat :=
  match o with Some n => n | None => d end.

(** [datetime.strptime(data_string, format)]; [None] is [ValueError]: a
    bad format, a text that does not match, text left over, or a date
    that does not exist. *)
Definition strptime (data_string format : string) : option datetime :=
  match compile_format format with
  | None => None
  | Some items =>
      match match_items items data_string nothing_found with
      | Some (f, EmptyString) =>
          make_datetime (or_default 1900 (found_year f))
                        (or_default 1 (found_month f))
                        (or_default 1 (found_day f))
      | _ => None
      end
  end.

Definition letter : Re.regex :=
  Re.Chr (fun a => Py.is_upper a || Py.is_lower a).

(** [([A-Za-z]+-\d{1,2}-\d{4})] *)
Definition date_re : Re.regex :=
  Re.Cap
    (Re.Seq (Re.plus true letter)
       (Re.Seq (Re.lit "-")
          (Re.Seq (Re.Seq Re.digit (Re.opt Re.digit))
             (Re.Seq (Re.lit "-")
                (Re.Seq Re.digit
                   (Re.Seq Re.digit (Re.Seq Re.digit Re.digit))))))).

Definition date_formats : list string :=
  [ "%B-%d-%Y"; "%b-%d-%Y"; "%B-%#d-%Y"; "%b-%#d-%Y" ].

Definition parse_date_from_filename (filename : string) : option datetime :=
  match Re.search date_re filename with
  | None => None
  | Some m =>
      match Re.m_group1 m with
      | Some date_str => first_some (strptime date_str) date_formats
      | None => None
      end
  end.

(** ** The newest bulletin among the links of a page

    Of [scrape_new_pdf_data], the choice of the link; fetching the page
    and the file is outside the model.  The page is given by the [href]
    values of its anchors, in document order. *)

Definition BASE_URL : string := "https://www.da.gov.ph".

(** [(Daily-Price-Index|DPI).*?\.pdf$] under IGNORECASE *)
Definition link_re : Re.regex :=
  Re.Seq (Re.Cap (Re.Alt (Re.lit_i "Daily-Price-Index") (Re.lit_i "DPI")))
    (Re.Seq (Re.Star false Re.dot) (Re.Seq (Re.lit_i ".pdf") Re.Eol)).

Definition is_pdf_link (href : string) : bool :=
  match Re.search link_re href with Some _ => true | None => false end.

(** [href.split('/')[-1]] *)
Definition f_name (href : string) : string :=
  last (Py.split_char "/" href) EmptyString.

(** The link kept: its address and its date; the source keeps the date as
    text. *)
Record newest : Type := mknewest { href : string; date : datetime }.

(** Why no file is fetched, or the link that is. *)
Inductive selection : Type :=
| NoPdfLinks                   (* 404: no bulletin among the links *)
| NoDates                      (* 404: no date in any of them *)
| Selected (link : newest).

Section Selection.

(** [urllib.parse.urljoin], which is outside the model. *)
Variable urljoin : string -> string -> string.

Definition consider (st : datetime * option newest) (h : string)
  : datetime * option newest :=
  match parse_date_from_filename (f_name h) with
  | Some f_date =>
      if datetime_ltb (fst st) f_date
      then (f_date, Some (mknewest (urljoin BASE_URL h) f_date))
      else st
  | None => st
  end.

Definition newest_link (links : list string) : option newest :=
  snd (fold_left consider links (datetime_min, None)).

Definition select_link (hrefs : list string) : selection :=
  match filter is_pdf_link hrefs with
  | [] => NoPdfLinks
  | links =>
      match newest_link links with
      | Some link => Selected link
      | None => NoDates
      end
  end.

(** What the loop has found after the links [seen]: nothing, when none of
    them has a date after the least one; or the first of the links with
    the greatest date. *)
Definition newest_of (seen : list string) (st : datetime * option newest)
  : Prop :=
  match snd st with
  | None =>
      fst st = datetime_min
      /\ forall h t,
           In h seen -> parse_date_from_filename (f_name h) = Some t ->
           datetime_ltb datetime_min t = false
  | Some link =>
      fst st = date link
      /\ datetime_ltb datetime_min (date link) = true
      /\ exists before h after,
           seen = before ++ h :: after
           /\ href link = urljoin BASE_URL h
           /\ parse_date_from_filename (f_name h) = Some (date link)
           /\ (forall h' t,
                  In h' before ->
                  parse_date_from_filename (f_name h') = Some t ->
                  datetime_ltb t (date link) = true)
           /\ (forall h' t,
                  In h' after ->
                  parse_date_from_filename (f_name h') = Some t ->
                  datetime_ltb (date link) t = false)
  end.

End Selection.

(* ===================================================================== *)
(** * Properties *)
(* ===================================================================== *)

(** ** Strings: append, prefixes, substrings *)

Lemma sapp_assoc (a b c : string) : (a +++ b) +++ c = a +++ b +++ c.
Proof. induction a as [|x a IH]; simpl; congruence. Qed.

Lemma sapp_nil_r (a : string) : a +++ "" = a.
Proof. induction a as [|x a IH]; simpl; congruence. Qed.

Lemma slength_app (a b : string) :
  String.length (a +++ b) = String.length a + String.length b.
Proof. induction a as [|x a IH]; simpl; congruence. Qed.

Lemma prefix_app (k s : string) :
  prefix k s = true <-> exists post, s = k +++ post.
Proof.
  revert s. induction k as [|a k IH]; intros s; simpl.
  - destruct s; split; eauto.
  - destruct s as [|b s].
    + split; [discriminate | intros [post H]; discriminate].
    + simpl. destruct (ascii_dec a b) as [->|N].
      * rewrite IH. split; intros [post H]; exists post; congruence.
      * split; [discriminate|]. intros [post H]. congruence.
Qed.

(** [sub in s] says that [s] is [pre +++ sub +++ post]. *)
Lemma contains_app (sub s : string) :
  Py.contains sub s = true <-> exists pre post, s = pre +++ sub +++ post.
Proof.
  induction s as [|b s IH]; cbn [Py.contains];
    rewrite orb_true_iff, prefix_app.
  - split.
    + intros [[post H]|H]; [|discriminate]. exists "", post. exact H.
    + intros (pre & post & H). left. destruct pre; [|discriminate].
      exists post. exact H.
  - rewrite IH. split.
    + intros [[post H]|(pre & post & H)].
      * exists "", post. exact H.
      * exists (String b pre), post. simpl. congruence.
    + intros (pre & post & H). destruct pre as [|c pre]; simpl in H.
      * left. exists post. exact H.
      * right. exists pre, post. congruence.
Qed.

Lemma map_chars_app (f : ascii -> ascii) (a b : string) :
  Py.map_chars f (a +++ b) = Py.map_chars f a +++ Py.map_chars f b.
Proof. induction a as [|x a IH]; simpl; congruence. Qed.

Lemma map_chars_split (f : ascii -> ascii) (s a b : string) :
  Py.map_chars f s = a +++ b ->
  exists a' b', s = a' +++ b' /\ Py.map_chars f a' = a /\ Py.map_chars f b' = b.
Proof.
  revert s. induction a as [|x a IH]; intros s H; simpl in H.
  - exists "", s. auto.
  - destruct s as [|c s]; [discriminate|]. simpl in H.
    injection H as Hc H. destruct (IH s H) as (a' & b' & -> & Ha & Hb).
    exists (String c a'), b'. simpl. repeat split; congruence.
Qed.

Lemma take_drop (n : nat) (s : string) : s = Py.take n s +++ Py.drop n s.
Proof.
  revert s. induction n as [|n IH]; intros [|c s]; simpl; try reflexivity.
  now rewrite <- IH.
Qed.

Lemma lstrip_by_suffix (f : ascii -> bool) (s : string) :
  exists pre, s = pre +++ Py.lstrip_by f s.
Proof.
  induction s as [|c s [pre IH]]; simpl.
  - now exists "".
  - destruct (f c).
    + exists (String c pre). simpl. congruence.
    + now exists "".
Qed.

Lemma rstrip_by_prefix (f : ascii -> bool) (s : string) :
  exists post, s = Py.rstrip_by f s +++ post.
Proof.
  induction s as [|c s [post IH]]; simpl.
  - now exists "".
  - destruct (Py.rstrip_by f s) as [|d t].
    + destruct (f c).
      * exists (String c s). reflexivity.
      * exists post. simpl in *. congruence.
    + exists post. simpl in *. congruence.
Qed.

Lemma strip_infix (s : string) :
  exists pre post, s = pre +++ Py.strip s +++ post.
Proof.
  unfold Py.strip, Py.strip_by.
  destruct (lstrip_by_suffix Py.is_space s) as [pre H].
  destruct (rstrip_by_prefix Py.is_space (Py.lstrip_by Py.is_space s))
    as [post H'].
  exists pre, post. now rewrite <- H', <- H.
Qed.

Lemma all_chars_app (f : ascii -> bool) (a b : string) :
  all_chars f (a +++ b) = all_chars f a && all_chars f b.
Proof.
  induction a as [|x a IH]; simpl; [reflexivity|].
  now rewrite IH, andb_assoc.
Qed.

(** ** The duplicate check *)

Lemma option_eqb_eq (a b : option string) : option_eqb a b = true <-> a = b.
Proof.
  destruct a as [x|], b as [y|]; simpl; try (split; congruence).
  rewrite String.eqb_eq. split; congruence.
Qed.

Lemma same_key_eq (e r : PriceRow) : same_key e r = true <-> key e = key r.
Proof.
  unfold same_key, key.
  rewrite !andb_true_iff, !String.eqb_eq, option_eqb_eq.
  split.
  - intros [[-> ->] ->]. reflexivity.
  - intros H. injection H as -> -> ->. auto.
Qed.

Lemma same_key_neq (e r : PriceRow) : same_key e r = false <-> key e <> key r.
Proof.
  rewrite <- same_key_eq. destruct (same_key e r); split; congruence.
Qed.

Lemma key_absorb (e r : PriceRow) : key (absorb e r) = key e.
Proof. unfold absorb. destruct (price e), (price r); reflexivity. Qed.

Lemma scan_duplicate_keys (row : PriceRow) (l l' : list PriceRow) :
  scan_duplicate row l = Some l' -> map key l' = map key l.
Proof.
  revert l'. induction l as [|e l IH]; simpl; intros l' H.
  - discriminate.
  - destruct (same_key e row).
    + injection H as <-. simpl. now rewrite key_absorb.
    + destruct (scan_duplicate row l) as [l''|]; [|discriminate].
      injection H as <-. simpl. now rewrite (IH l'' eq_refl).
Qed.

Lemma scan_duplicate_none (row : PriceRow) (l : list PriceRow) :
  scan_duplicate row l = None -> ~ In (key row) (map key l).
Proof.
  induction l as [|e l IH]; simpl; intros H.
  - tauto.
  - destruct (same_key e row) eqn:E; [discriminate|].
    destruct (scan_duplicate row l); [discriminate|].
    apply same_key_neq in E. intros [K|K]; [congruence|]. now apply IH.
Qed.

Lemma NoDup_snoc {A : Type} (l : list A) (x : A) :
  NoDup l -> ~ In x l -> NoDup (l ++ [x]).
Proof.
  induction 1 as [|y l Hy Hl IH]; simpl; intros Hx.
  - constructor; [tauto | constructor].
  - constructor.
    + rewrite in_app_iff. simpl. intros [K|[K|[]]]; [tauto|].
      apply Hx. now left.
    + apply IH. intros K. apply Hx. now right.
Qed.

(** The invariant of [price_data_list], kept by every row folded in. *)
Lemma fold_in_unique (l : list PriceRow) (row : PriceRow) :
  NoDup (map key l) -> NoDup (map key (fold_in l row)).
Proof.
  intros H. unfold fold_in.
  destruct (scan_duplicate row l) as [l'|] eqn:E.
  - now rewrite (scan_duplicate_keys _ _ _ E).
  - rewrite map_app. simpl. apply NoDup_snoc; [assumption|].
    now apply scan_duplicate_none.
Qed.

Lemma process_line_split (cat : string) (l : list PriceRow) (line : string) :
  process_line (cat, l) line
  = (category_after cat line, merge_row l (row_of_line cat line)).
Proof.
  unfold category_after, row_of_line, process_line.
  destruct (Py.strip line) as [|a s]; [reflexivity|].
  destruct (detect_category (String a s)); [reflexivity|].
  destruct (is_noise (String a s)); [reflexivity|].
  destruct (negb (String.eqb cat UNKNOWN)); [|reflexivity].
  destruct (parse_smart_row (String a s) cat); reflexivity.
Qed.

Lemma process_lines_rows (lines : list string) (cat : string)
  (l : list PriceRow) :
  snd (process_lines (cat, l) lines)
  = fold_left merge_row (rows_of_lines cat lines) l.
Proof.
  unfold process_lines. revert cat l.
  induction lines as [|line lines IH]; intros cat l;
    cbn [fold_left rows_of_lines].
  - reflexivity.
  - rewrite process_line_split. apply IH.
Qed.

Lemma row_processing_rows (raw_text : string) :
  row_processing raw_text = fold_left merge_row (line_rows raw_text) [].
Proof. apply process_lines_rows. Qed.

Lemma merge_rows_unique (os : list (option PriceRow)) (l : list PriceRow) :
  NoDup (map key l) -> NoDup (map key (fold_left merge_row os l)).
Proof.
  revert l. induction os as [|o os IH]; simpl; intros l H; [assumption|].
  apply IH. destruct o; simpl; [now apply fold_in_unique | assumption].
Qed.

Lemma row_processing_unique (raw_text : string) :
  NoDup (map key (row_processing raw_text)).
Proof.
  rewrite row_processing_rows. apply merge_rows_unique. constructor.
Qed.

(** C1.  Uniqueness: in the [price_data] of every result, no two rows
    have the same (category, commodity, origin); and folding a row into a
    list without such a pair gives a list without such a pair. *)
Theorem C1_price_data_keys_unique :
  (forall raw_text,
      NoDup (map key (price_data (parse_text_to_json raw_text))))
  /\ (forall l row,
         NoDup (map key l) -> NoDup (map key (fold_in l row))).
Proof.
  split.
  - intros raw_text. simpl. apply row_processing_unique.
  - exact fold_in_unique.
Qed.

Lemma C1_price_data_keys_unique_witness :
  NoDup (map key (fold_in [mango_without_price] mango_with_price)).
Proof.
  apply (proj2 C1_price_data_keys_unique [mango_without_price]
               mango_with_price).
  simpl. constructor; [simpl; tauto | constructor].
Defined.

Lemma accepted_exists (row e : PriceRow) (l : list PriceRow) :
  In e l -> key e = key row -> exists existing, accepted row l = Some existing.
Proof.
  intros Hin Hk. unfold accepted.
  destruct (find (fun x => same_key x row) l) as [x|] eqn:E; [eauto|].
  apply (find_none _ _ E) in Hin. apply same_key_neq in Hin. contradiction.
Qed.

Lemma NoDup_map_eq {A B : Type} (f : A -> B) (l : list A) (x y : A) :
  NoDup (map f l) -> In x l -> In y l -> f x = f y -> x = y.
Proof.
  induction l as [|a l IH]; simpl; intros H Hx Hy E; [tauto|].
  inversion H as [|? ? Ha Hl]; subst.
  destruct Hx as [->|Hx], Hy as [->|Hy]; auto.
  - exfalso. apply Ha. rewrite E. now apply in_map.
  - exfalso. apply Ha. rewrite <- E. now apply in_map.
Qed.

Lemma accepted_in (row existing : PriceRow) (l : list PriceRow) :
  accepted row l = Some existing -> In existing l /\ key existing = key row.
Proof.
  intros H. apply find_some in H. now rewrite same_key_eq in H.
Qed.

(** Where the scan stops, and what it leaves behind. *)
Lemma scan_duplicate_found (row existing : PriceRow) (l : list PriceRow) :
  accepted row l = Some existing ->
  exists l1 l2,
    l = l1 ++ existing :: l2
    /\ Forall (fun x => key x <> key row) l1
    /\ scan_duplicate row l = Some (l1 ++ absorb existing row :: l2).
Proof.
  unfold accepted. induction l as [|e l IH]; simpl; intros H; [discriminate|].
  destruct (same_key e row) eqn:E.
  - injection H as ->. exists [], l. repeat split; auto.
  - destruct (IH H) as (l1 & l2 & -> & Hl1 & ->).
    exists (e :: l1), l2. repeat split; auto.
    constructor; [now apply same_key_neq | assumption].
Qed.

(** C10.  A row that matches an accepted row changes nothing but, at
    most, the price of that row, and that only from absent to the new
    row's price; its own unit is dropped whatever the accepted row's unit
    is, and every other row stays as it is. *)
Theorem C10_duplicate_changes_price_only
  (l : list PriceRow) (row e : PriceRow) :
  In e l -> key e = key row ->
  exists l1 existing l2 merged,
    l = l1 ++ existing :: l2
    /\ key existing = key row
    /\ Forall (fun x => key x <> key row) l1
    /\ (NoDup (map key l) -> existing = e)
    /\ fold_in l row = l1 ++ merged :: l2
    /\ category merged = category existing
    /\ commodity merged = commodity existing
    /\ origin merged = origin existing
    /\ unit merged = unit existing
    /\ (price merged = price existing
        \/ (price existing = None /\ price row <> None
            /\ price merged = price row)).
Proof.
  intros Hin Hk.
  destruct (accepted_exists _ _ _ Hin Hk) as [existing Ha].
  destruct (accepted_in _ _ _ Ha) as [Hin' Hk'].
  destruct (scan_duplicate_found _ _ _ Ha) as (l1 & l2 & El & Hl1 & Es).
  exists l1, existing, l2, (absorb existing row).
  split; [exact El|]. split; [exact Hk'|]. split; [exact Hl1|].
  split.
  { intros Hnd. apply (NoDup_map_eq key l); auto. congruence. }
  split; [unfold fold_in; now rewrite Es|].
  unfold absorb.
  destruct (price existing) as [p|] eqn:Ep, (price row) as [q|] eqn:Eq;
    simpl; repeat split; auto.
  right. repeat split; auto. discriminate.
Qed.

(** The accepted row has neither unit nor price, the new row has both:
    the price comes, the unit does not. *)
Lemma C10_duplicate_changes_price_only_witness :
  exists l1 existing l2 merged,
    [mango_without_price] = l1 ++ existing :: l2
    /\ key existing = key mango_with_price
    /\ Forall (fun x => key x <> key mango_with_price) l1
    /\ (NoDup (map key [mango_without_price]) ->
        existing = mango_without_price)
    /\ fold_in [mango_without_price] mango_with_price = l1 ++ merged :: l2
    /\ category merged = category existing
    /\ commodity merged = commodity existing
    /\ origin merged = origin existing
    /\ unit merged = unit existing
    /\ (price merged = price existing
        \/ (price existing = None /\ price mango_with_price <> None
            /\ price merged = price mango_with_price)).
Proof.
  apply (C10_duplicate_changes_price_only
           [mango_without_price] mango_with_price mango_without_price).
  - simpl. left. reflexivity.
  - reflexivity.
Defined.

(** The accepted row has no unit, the duplicate has one: the merged row
    has the duplicate's price and still no unit. *)
Lemma duplicate_unit_example :
  fold_in [mango_without_price] mango_with_price
  = [mango_at (mkdecimal 12000 2)]
  /\ unit (mango_at (mkdecimal 12000 2)) = None.
Proof. split; reflexivity. Qed.

(** ** The row parser, unfolded *)

Lemma parse_smart_row_matched (line cat : string) (start : nat)
  (token : string) :
  price_match (Py.strip line) = Some (start, token) ->
  parse_smart_row line cat
  = if String.length (normalize_commodity_name (name_segment line start) cat)
       <? 2
    then None
    else Some (built_row line cat start token).
Proof.
  intros H. unfold parse_smart_row, built_row, name_segment. now rewrite H.
Qed.

Lemma parse_smart_row_some (line cat : string) (row : PriceRow) :
  parse_smart_row line cat = Some row ->
  exists start token,
    price_match (Py.strip line) = Some (start, token)
    /\ 2 <= String.length
              (normalize_commodity_name (name_segment line start) cat)
    /\ row = built_row line cat start token.
Proof.
  intros H.
  destruct (price_match (Py.strip line)) as [[start token]|] eqn:E.
  - rewrite (parse_smart_row_matched _ _ _ _ E) in H.
    destruct (Nat.ltb_spec
                (String.length
                   (normalize_commodity_name (name_segment line start) cat))
                2) as [Hlt|Hge]; [discriminate|].
    injection H as <-. exists start, token. auto.
  - unfold parse_smart_row in H. rewrite E in H. discriminate.
Qed.

Lemma row_of_line_parsed (cat line : string) (row : PriceRow) :
  row_of_line cat line = Some row ->
  parse_smart_row (Py.strip line) cat = Some row.
Proof.
  unfold row_of_line.
  destruct (Py.strip line) as [|a s]; [discriminate|].
  destruct (detect_category (String a s)); [discriminate|].
  destruct (is_noise (String a s)); [discriminate|].
  destruct (negb (String.eqb cat UNKNOWN)); [|discriminate].
  auto.
Qed.

(** ** What holds of every accepted row *)

Section RowInvariant.

Variable P : PriceRow -> Prop.
Hypothesis P_set_price : forall e p, P e -> P (set_price e p).

Lemma P_absorb (e r : PriceRow) : P e -> P (absorb e r).
Proof. unfold absorb. destruct (price e), (price r); auto. Qed.

Lemma scan_duplicate_invariant (row : PriceRow) (l l' : list PriceRow) :
  Forall P l -> scan_duplicate row l = Some l' -> Forall P l'.
Proof.
  revert l'. induction l as [|e l IH]; simpl; intros l' Hl H; [discriminate|].
  inversion Hl as [|? ? He Hl']; subst.
  destruct (same_key e row).
  - injection H as <-. constructor; [now apply P_absorb | assumption].
  - destruct (scan_duplicate row l) as [l''|]; [|discriminate].
    injection H as <-. constructor; auto.
Qed.

Lemma fold_in_invariant (l : list PriceRow) (row : PriceRow) :
  Forall P l -> P row -> Forall P (fold_in l row).
Proof.
  intros Hl Hr. unfold fold_in.
  destruct (scan_duplicate row l) as [l'|] eqn:E.
  - now apply (scan_duplicate_invariant row l).
  - apply Forall_app. split; [assumption | constructor; auto].
Qed.

Hypothesis P_parsed :
  forall line cat row, parse_smart_row line cat = Some row -> P row.

Lemma process_lines_invariant (lines : list string) (st : loop_state) :
  Forall P (snd st) -> Forall P (snd (process_lines st lines)).
Proof.
  unfold process_lines. revert st.
  induction lines as [|line lines IH]; intros [cat l] H;
    cbn [fold_left]; [assumption|].
  apply IH. rewrite process_line_split. cbn [snd] in *.
  destruct (row_of_line cat line) as [row|] eqn:E; simpl; [|assumption].
  apply fold_in_invariant; [assumption|].
  apply row_of_line_parsed in E. now apply P_parsed in E.
Qed.

Lemma row_processing_invariant (raw_text : string) :
  Forall P (row_processing raw_text).
Proof. apply process_lines_invariant. constructor. Qed.

End RowInvariant.

(** C8.  A commodity name has at least 2 characters in every row of the
    result and in every row the row parser returns, where it is the
    normalized name; a normalized name shorter than that makes the row
    parser return nothing. *)
Theorem C8_commodity_at_least_two_chars :
  (forall raw_text row,
      In row (price_data (parse_text_to_json raw_text)) ->
      2 <= String.length (commodity row))
  /\ (forall line cat row,
         parse_smart_row line cat = Some row ->
         exists start token,
           price_match (Py.strip line) = Some (start, token)
           /\ commodity row
              = normalize_commodity_name (name_segment line start) cat
           /\ 2 <= String.length (commodity row))
  /\ (forall line cat start token,
         price_match (Py.strip line) = Some (start, token) ->
         String.length
           (normalize_commodity_name (name_segment line start) cat) < 2 ->
         parse_smart_row line cat = None).
Proof.
  assert (Hp : forall line cat row,
             parse_smart_row line cat = Some row ->
             2 <= String.length (commodity row)).
  { intros line cat row H.
    destruct (parse_smart_row_some _ _ _ H) as (start & token & _ & Hl & ->).
    exact Hl. }
  split; [|split].
  - intros raw_text row Hin. simpl in Hin.
    pose proof (row_processing_invariant
                  (fun r => 2 <= String.length (commodity r))
                  (fun e p H => H) Hp raw_text) as HF.
    rewrite Forall_forall in HF. now apply HF.
  - intros line cat row H.
    destruct (parse_smart_row_some _ _ _ H) as (start & token & Hm & Hl & ->).
    exists start, token. auto.
  - intros line cat start token Hm Hlt.
    rewrite (parse_smart_row_matched _ _ _ _ Hm).
    apply Nat.ltb_lt in Hlt. now rewrite Hlt.
Qed.

(** The line [X -] under FRUITS: the name [X] is one character long. *)
Lemma C8_commodity_at_least_two_chars_witness :
  parse_smart_row "X -" "FRUITS" = None.
Proof.
  apply (proj2 (proj2 C8_commodity_at_least_two_chars) "X -" "FRUITS" 1 "-").
  - vm_compute. reflexivity.
  - vm_compute. lia.
Defined.

(** ** Which price a key ends up with *)

Lemma same_key_congr (x r row : PriceRow) :
  key r = key row -> same_key x r = same_key x row.
Proof.
  intros H. destruct (same_key x row) eqn:E.
  - apply same_key_eq. apply same_key_eq in E. congruence.
  - apply same_key_neq. apply same_key_neq in E. congruence.
Qed.

Lemma accepted_snoc (row r : PriceRow) (l : list PriceRow) :
  accepted row (l ++ [r])
  = match accepted row l with
    | Some e => Some e
    | None => if same_key r row then Some r else None
    end.
Proof.
  unfold accepted. induction l as [|x l IH]; simpl.
  - reflexivity.
  - destruct (same_key x row); [reflexivity | exact IH].
Qed.

(** A row with another key leaves the accepted row of [row] alone. *)
Lemma accepted_fold_in_other (row r : PriceRow) (l : list PriceRow) :
  key r <> key row -> accepted row (fold_in l r) = accepted row l.
Proof.
  intros Hk. unfold fold_in.
  destruct (scan_duplicate r l) as [l'|] eqn:E.
  - revert l' E. unfold accepted.
    induction l as [|x l IH]; simpl; intros l' E; [discriminate|].
    destruct (same_key x r) eqn:Ex.
    + injection E as <-. simpl.
      assert (Hx : same_key x row = false).
      { apply same_key_neq. apply same_key_eq in Ex. congruence. }
      assert (Hx' : same_key (absorb x r) row = false).
      { apply same_key_neq. rewrite key_absorb.
        apply same_key_eq in Ex. congruence. }
      now rewrite Hx, Hx'.
    + destruct (scan_duplicate r l) as [l''|]; [|discriminate].
      injection E as <-. simpl.
      destruct (same_key x row); [reflexivity | now apply IH].
  - rewrite accepted_snoc.
    apply same_key_neq in Hk. rewrite Hk.
    now destruct (accepted row l).
Qed.

(** A row with the same key is absorbed by the accepted row, or becomes
    the accepted row. *)
Lemma accepted_fold_in_same (row r : PriceRow) (l : list PriceRow) :
  key r = key row ->
  accepted row (fold_in l r)
  = Some (match accepted row l with
          | Some e => absorb e r
          | None => r
          end).
Proof.
  intros Hk. unfold fold_in.
  destruct (scan_duplicate r l) as [l'|] eqn:E.
  - revert l' E. unfold accepted.
    induction l as [|x l IH]; simpl; intros l' E; [discriminate|].
    rewrite <- (same_key_congr x r row Hk).
    destruct (same_key x r) eqn:Ex.
    + injection E as <-. simpl.
      assert (Hx' : same_key (absorb x r) row = true).
      { apply same_key_eq. rewrite key_absorb.
        apply same_key_eq in Ex. congruence. }
      now rewrite Hx'.
    + destruct (scan_duplicate r l) as [l''|]; [|discriminate].
      injection E as <-. simpl.
      rewrite <- (same_key_congr x r row Hk), Ex. now apply IH.
  - rewrite accepted_snoc.
    assert (Hnone : accepted row l = None).
    { unfold accepted.
      destruct (find (fun x => same_key x row) l) as [e|] eqn:F; [|reflexivity].
      apply find_some in F. destruct F as [Hin F].
      apply same_key_eq in F.
      exfalso. apply (scan_duplicate_none _ _ E).
      rewrite Hk, <- F. now apply in_map. }
    rewrite Hnone.
    assert (Hr : same_key r row = true) by now apply same_key_eq.
    now rewrite Hr.
Qed.

Lemma unsettled_kept (row : PriceRow) (os : list (option PriceRow))
  (l : list PriceRow) :
  unsettled row l ->
  (forall r, In (Some r) os -> key r = key row -> price r = None) ->
  unsettled row (fold_left merge_row os l).
Proof.
  revert l. induction os as [|o os IH]; simpl; intros l Hl Hos; [assumption|].
  apply IH; [|intros r Hr; apply Hos; now right].
  destruct o as [r|]; simpl; [|assumption].
  destruct (same_key r row) eqn:E.
  - apply same_key_eq in E. intros e He.
    rewrite (accepted_fold_in_same _ _ _ E) in He. injection He as <-.
    assert (Hr : price r = None) by (apply Hos; auto).
    destruct (accepted row l) as [e|] eqn:Ea; [|assumption].
    unfold absorb. rewrite (Hl e Ea), Hr. exact (Hl e Ea).
  - apply same_key_neq in E. intros e He.
    rewrite (accepted_fold_in_other _ _ _ E) in He. now apply Hl.
Qed.

Lemma settled_by (row r : PriceRow) (v : decimal) (l : list PriceRow) :
  unsettled row l -> key r = key row -> price r = Some v ->
  settled row v (fold_in l r).
Proof.
  intros Hl Hk Hp. unfold settled.
  rewrite (accepted_fold_in_same _ _ _ Hk).
  destruct (accepted row l) as [e|] eqn:Ea.
  - exists (absorb e r). split; [reflexivity|].
    unfold absorb. now rewrite (Hl e Ea), Hp.
  - exists r. auto.
Qed.

Lemma settled_kept (row : PriceRow) (v : decimal)
  (os : list (option PriceRow)) (l : list PriceRow) :
  settled row v l -> settled row v (fold_left merge_row os l).
Proof.
  revert l. induction os as [|o os IH]; simpl; intros l Hl; [assumption|].
  apply IH. destruct o as [r|]; simpl; [|assumption].
  destruct Hl as (e & Ha & Hp).
  destruct (same_key r row) eqn:E.
  - apply same_key_eq in E. exists e.
    rewrite (accepted_fold_in_same _ _ _ E), Ha.
    unfold absorb. now rewrite Hp.
  - apply same_key_neq in E. exists e.
    now rewrite (accepted_fold_in_other _ _ _ E).
Qed.

(** The first present price among the rows of a key is the key's price
    in the end. *)
Lemma first_present_price_wins (row : PriceRow) (v : decimal)
  (os1 os2 : list (option PriceRow)) :
  price row = Some v ->
  (forall r, In (Some r) os1 -> key r = key row -> price r = None) ->
  settled row v (fold_left merge_row (os1 ++ Some row :: os2) []).
Proof.
  intros Hp Hos1. rewrite fold_left_app. simpl.
  apply settled_kept. apply settled_by; auto.
  apply unsettled_kept; [|assumption].
  intros e He. discriminate.
Qed.

Lemma earlier_rows (os : list (option PriceRow)) (i : nat) (row : PriceRow)
  (Q : PriceRow -> Prop) :
  nth_error os i = Some (Some row) ->
  (forall n r, n < i -> nth_error os n = Some (Some r) -> Q r) ->
  exists os1 os2,
    os = os1 ++ Some row :: os2
    /\ (forall r, In (Some r) os1 -> Q r).
Proof.
  intros Hi Hbefore.
  destruct (nth_error_split os i Hi) as (os1 & os2 & -> & Hlen).
  exists os1, os2. split; [reflexivity|].
  intros r Hr. destruct (In_nth_error _ _ Hr) as [n Hn].
  assert (Hlt : n < length os1).
  { apply nth_error_Some. congruence. }
  apply (Hbefore n r); [lia|].
  rewrite nth_error_app1; assumption.
Qed.

(** C2, as the code has it.  Two lines parse to rows of one key, [ri]
    with the price [v] and [rj] without a price, in either order; no line
    before the one of [ri] parses to a row of that key with a price.
    Then the result has exactly one row of the key, with the price [v]. *)
Theorem C2_merged_price_is_the_present_one
  (raw_text : string) (i j : nat) (ri rj : PriceRow) (v : decimal) :
  nth_error (line_rows raw_text) i = Some (Some ri) ->
  nth_error (line_rows raw_text) j = Some (Some rj) ->
  key ri = key rj ->
  price ri = Some v ->
  price rj = None ->
  (forall n r, n < i ->
     nth_error (line_rows raw_text) n = Some (Some r) ->
     key r = key ri -> price r = None) ->
  exists e,
    In e (price_data (parse_text_to_json raw_text))
    /\ key e = key ri
    /\ price e = Some v
    /\ (forall e', In e' (price_data (parse_text_to_json raw_text)) ->
                   key e' = key ri -> e' = e).
Proof.
  intros Hi _ _ Hp _ Hbefore. simpl.
  destruct (earlier_rows _ _ _ (fun r => key r = key ri -> price r = None)
              Hi Hbefore) as (os1 & os2 & Eos & Hos1).
  pose proof (first_present_price_wins ri v os1 os2 Hp Hos1) as (e & Ha & He).
  rewrite <- Eos, <- row_processing_rows in Ha.
  destruct (accepted_in _ _ _ Ha) as [Hin Hk].
  exists e. repeat split; auto.
  intros e' Hin' Hk'.
  apply (NoDup_map_eq key (row_processing raw_text));
    auto using row_processing_unique.
  congruence.
Qed.

(** The priced line first, then the priced line second. *)
Lemma C2_merged_price_is_the_present_one_witness :
  (exists e,
      In e (price_data (parse_text_to_json priced_then_unpriced))
      /\ key e = key (mango_at (mkdecimal 12000 2))
      /\ price e = Some (mkdecimal 12000 2)
      /\ (forall e',
             In e' (price_data (parse_text_to_json priced_then_unpriced)) ->
             key e' = key (mango_at (mkdecimal 12000 2)) -> e' = e))
  /\ (exists e,
         In e (price_data (parse_text_to_json unpriced_then_priced))
         /\ key e = key (mango_at (mkdecimal 12000 2))
         /\ price e = Some (mkdecimal 12000 2)
         /\ (forall e',
                In e' (price_data (parse_text_to_json unpriced_then_priced)) ->
                key e' = key (mango_at (mkdecimal 12000 2)) -> e' = e)).
Proof.
  split.
  - apply (C2_merged_price_is_the_present_one priced_then_unpriced 1 2
             (mango_at (mkdecimal 12000 2)) mango_without_price
             (mkdecimal 12000 2)).
    + vm_compute. reflexivity.
    + vm_compute. reflexivity.
    + reflexivity.
    + reflexivity.
    + reflexivity.
    + intros n r Hn Hnth _. destruct n as [|n]; [|lia].
      vm_compute in Hnth. discriminate.
  - apply (C2_merged_price_is_the_present_one unpriced_then_priced 2 1
             (mango_at (mkdecimal 12000 2)) mango_without_price
             (mkdecimal 12000 2)).
    + vm_compute. reflexivity.
    + vm_compute. reflexivity.
    + reflexivity.
    + reflexivity.
    + reflexivity.
    + intros n r Hn Hnth _. destruct n as [|[|n]]; [| |lia].
      * vm_compute in Hnth. discriminate.
      * vm_compute in Hnth. injection Hnth as <-. reflexivity.
Defined.

(** C2, as stated, fails on three lines.  In [three_mango_lines] the
    lines 2 and 3 parse to rows of one key, line 3 alone carries a price,
    20.00; the merged row keeps 10.00, the price of line 1. *)
Lemma C2_merge_counterexample :
  exists i j ri rj v,
    nth_error (line_rows three_mango_lines) i = Some (Some ri)
    /\ nth_error (line_rows three_mango_lines) j = Some (Some rj)
    /\ i <> j
    /\ key ri = key rj
    /\ price ri = Some v
    /\ price rj = None
    /\ price_data (parse_text_to_json three_mango_lines)
       = [mango_at (mkdecimal 1000 2)]
    /\ ~ (exists e,
             In e (price_data (parse_text_to_json three_mango_lines))
             /\ key e = key ri
             /\ price e = Some v).
Proof.
  exists 3, 2, (mango_at (mkdecimal 2000 2)), mango_without_price,
    (mkdecimal 2000 2).
  split; [vm_compute; reflexivity|].
  split; [vm_compute; reflexivity|].
  split; [discriminate|].
  split; [reflexivity|].
  split; [reflexivity|].
  split; [reflexivity|].
  split; [vm_compute; reflexivity|].
  intros (e & Hin & _ & Hp).
  vm_compute in Hin. destruct Hin as [<-|[]]. discriminate.
Qed.

(** ** Scenario A *)

(** C3, as the code has it.  With LOCAL COMMERCIAL RICE the current
    category, the two lines of scenario A give exactly one row: category
    COMMERCIAL RICE, commodity Well Milled Rice, origin Local, price 45.50,
    and no unit: the name has none of the unit keywords.  The same row
    comes out of the whole parser when the header line precedes the
    text. *)
Theorem C3_scenario_A_row_has_no_unit :
  snd (process_lines scenario_A_state (Py.split_char "010" scenario_A_text))
  = [scenario_A_actual]
  /\ price_data (parse_text_to_json scenario_A_with_header)
     = [scenario_A_actual]
  /\ determine_unit "Well Milled Rice" "LOCAL COMMERCIAL RICE" = None.
Proof. repeat split; vm_compute; reflexivity. Qed.

(** C3, as stated, fails: the one row of scenario A is not the expected
    row, whose unit is kg. *)
Lemma C3_scenario_A_counterexample :
  snd (process_lines scenario_A_state (Py.split_char "010" scenario_A_text))
  = [scenario_A_actual]
  /\ unit scenario_A_actual = None
  /\ unit scenario_A_expected = Some "kg"
  /\ [scenario_A_actual] <> [scenario_A_expected].
Proof.
  split; [vm_compute; reflexivity|].
  split; [reflexivity|]. split; [reflexivity|]. discriminate.
Qed.

(** Without a header before it, the text of scenario A gives no row. *)
Lemma scenario_A_without_header :
  price_data (parse_text_to_json scenario_A_text) = [].
Proof. vm_compute. reflexivity. Qed.

(** ** Noise lines *)

(** C7, as the code has it.  A line with a noise marker never gives a row;
    it leaves the whole state as it is when it contains no category
    label.  (The category test comes first in the loop body.) *)
Theorem C7_noise_line_dropped (st : loop_state) (line : string) :
  is_noise (Py.strip line) = true ->
  snd (process_line st line) = snd st
  /\ row_of_line (fst st) line = None
  /\ (detect_category (Py.strip line) = None -> process_line st line = st).
Proof.
  intros Hn. destruct st as [cat l].
  unfold process_line, row_of_line. cbn [fst snd].
  destruct (Py.strip line) as [|a s] eqn:E.
  - repeat split; reflexivity.
  - destruct (detect_category (String a s)) as [c|].
    + repeat split; try reflexivity. discriminate.
    + rewrite Hn. repeat split; reflexivity.
Qed.

Lemma C7_noise_line_dropped_witness :
  snd (process_line ("SPICES", [mango_with_price]) "Source: DA price watch")
  = [mango_with_price]
  /\ row_of_line "SPICES" "Source: DA price watch" = None
  /\ (detect_category (Py.strip "Source: DA price watch") = None ->
      process_line ("SPICES", [mango_with_price]) "Source: DA price watch"
      = ("SPICES", [mango_with_price])).
Proof.
  apply (C7_noise_line_dropped ("SPICES", [mango_with_price])
           "Source: DA price watch").
  vm_compute. reflexivity.
Defined.

(** C7, as stated, fails: a non-empty line with the noise marker
    [Source:] that also contains the label FRUITS changes the current
    category from SPICES to FRUITS. *)
Lemma C7_noise_line_counterexample :
  Py.strip "Source: FRUITS" <> ""
  /\ is_noise (Py.strip "Source: FRUITS") = true
  /\ fst (process_line ("SPICES", []) "Source: FRUITS") = "FRUITS"
  /\ fst (process_line ("SPICES", []) "Source: FRUITS") <> "SPICES".
Proof.
  split; [vm_compute; discriminate|].
  split; [vm_compute; reflexivity|].
  split; [vm_compute; reflexivity|].
  vm_compute. discriminate.
Qed.

(** ** The market list *)

Lemma lstrip_by_empty (f : ascii -> bool) (s : string) :
  Py.lstrip_by f s = "" <-> all_chars f s = true.
Proof.
  induction s as [|c s IH]; simpl.
  - tauto.
  - destruct (f c); simpl; [exact IH|]. split; discriminate.
Qed.

Lemma rstrip_by_empty (f : ascii -> bool) (s : string) :
  Py.rstrip_by f s = "" <-> all_chars f s = true.
Proof.
  induction s as [|c s IH]; simpl.
  - tauto.
  - destruct (Py.rstrip_by f s) as [|d t].
    + destruct (f c); simpl.
      * split; intros _; [now apply IH | reflexivity].
      * split; discriminate.
    + split; [discriminate|]. rewrite andb_true_iff. intros [_ H].
      apply IH in H. discriminate.
Qed.

Lemma all_chars_lstrip (f : ascii -> bool) (s : string) :
  all_chars f (Py.lstrip_by f s) = all_chars f s.
Proof.
  induction s as [|c s IH]; simpl; [reflexivity|].
  destruct (f c) eqn:E; simpl; [exact IH|]. now rewrite E.
Qed.

Lemma strip_blank (m : string) :
  String.eqb (Py.strip m) "" = all_chars Py.is_space m.
Proof.
  unfold Py.strip, Py.strip_by.
  rewrite <- (all_chars_lstrip Py.is_space m).
  destruct (all_chars Py.is_space (Py.lstrip_by Py.is_space m)) eqn:E.
  - apply String.eqb_eq. now apply rstrip_by_empty.
  - apply String.eqb_neq. intros H. apply rstrip_by_empty in H. congruence.
Qed.

Lemma keep_fragment_spec (m : string) :
  keep_fragment m = negb (discarded m).
Proof.
  unfold keep_fragment, discarded.
  rewrite strip_blank, negb_orb. f_equal.
  destruct (Nat.ltb_spec 3 (String.length m)),
           (Nat.leb_spec (String.length m) 3); simpl; auto; lia.
Qed.

Lemma filter_filter {A : Type} (p q : A -> bool) (l : list A) :
  filter p (filter q l) = filter (fun x => q x && p x) l.
Proof.
  induction l as [|x l IH]; simpl; [reflexivity|].
  destruct (q x); simpl; [|exact IH].
  destruct (p x); now rewrite IH.
Qed.

(** The dict built from [acc] on: the keys of [acc], then the new names
    in the order in which they are first seen. *)
Lemma dict_add_keys (l acc : list string) :
  fold_left dict_add_key l acc
  = acc ++ filter (fun y => negb (existsb (String.eqb y) acc))
                  (distinct_first_seen l).
Proof.
  revert acc. induction l as [|x l IH]; intros acc; simpl.
  - now rewrite app_nil_r.
  - rewrite IH. unfold dict_add_key.
    destruct (existsb (String.eqb x) acc) eqn:E; simpl.
    + f_equal. rewrite filter_filter. apply filter_ext. intros y.
      destruct (String.eqb_spec y x) as [->|N]; simpl; [now rewrite E|].
      reflexivity.
    + rewrite <- app_assoc. simpl. do 2 f_equal.
      rewrite filter_filter. apply filter_ext. intros y.
      rewrite existsb_app. simpl. rewrite orb_false_r, negb_orb.
      apply andb_comm.
Qed.

Lemma dict_fromkeys_first_seen (l : list string) :
  dict_fromkeys l = distinct_first_seen l.
Proof.
  unfold dict_fromkeys. rewrite dict_add_keys. simpl.
  induction (distinct_first_seen l) as [|y r IH]; simpl; congruence.
Qed.

Lemma distinct_first_seen_in (l : list string) (x : string) :
  In x (distinct_first_seen l) <-> In x l.
Proof.
  induction l as [|y l IH]; simpl; [tauto|].
  rewrite filter_In, IH, negb_true_iff, String.eqb_neq.
  destruct (string_dec y x); intuition congruence.
Qed.

Lemma distinct_first_seen_nodup (l : list string) :
  NoDup (distinct_first_seen l).
Proof.
  induction l as [|y l IH]; simpl; constructor.
  - rewrite filter_In, negb_true_iff, String.eqb_neq. tauto.
  - now apply NoDup_filter.
Qed.

Lemma rstrip_by_idem (f : ascii -> bool) (s : string) :
  Py.rstrip_by f (Py.rstrip_by f s) = Py.rstrip_by f s.
Proof.
  induction s as [|c s IH]; simpl; [reflexivity|].
  destruct (Py.rstrip_by f s) as [|d t] eqn:E.
  - destruct (f c) eqn:Ef; simpl; [reflexivity | now rewrite Ef].
  - change (Py.rstrip_by f (String c (String d t)))
      with (match Py.rstrip_by f (String d t) with
            | EmptyString => if f c then EmptyString else String c EmptyString
            | String x u => String c (String x u)
            end).
    now rewrite IH.
Qed.

Lemma rstrip_by_head (f : ascii -> bool) (c : ascii) (s : string) :
  f c = false -> exists t, Py.rstrip_by f (String c s) = String c t.
Proof.
  intros Hc. simpl. destruct (Py.rstrip_by f s); [rewrite Hc|]; eauto.
Qed.

Lemma lstrip_by_head (f : ascii -> bool) (s : string) :
  Py.lstrip_by f s = ""
  \/ exists c t, Py.lstrip_by f s = String c t /\ f c = false.
Proof.
  induction s as [|c s IH]; simpl; [now left|].
  destruct (f c) eqn:E; [exact IH | right; eauto].
Qed.

(** Stripping twice is stripping once. *)
Lemma strip_by_idem (f : ascii -> bool) (s : string) :
  Py.strip_by f (Py.strip_by f s) = Py.strip_by f s.
Proof.
  unfold Py.strip_by.
  destruct (lstrip_by_head f s) as [E|(c & t & E & Hc)]; rewrite E.
  - reflexivity.
  - destruct (rstrip_by_head f c t Hc) as [u Eu]. rewrite Eu.
    cbn [Py.lstrip_by]. rewrite Hc. rewrite <- Eu. apply rstrip_by_idem.
Qed.

Lemma all_chars_infix (f : ascii -> bool) (pre t post : string) :
  all_chars f (pre +++ t +++ post) = true -> all_chars f t = true.
Proof.
  rewrite !all_chars_app, !andb_true_iff. tauto.
Qed.

Lemma newlines_to_spaces_no_break (m : string) :
  no_line_break (newlines_to_spaces m) = true.
Proof.
  unfold no_line_break, newlines_to_spaces.
  induction m as [|a m IH]; simpl; [reflexivity|]. rewrite IH.
  destruct (Ascii.eqb a "010" || Ascii.eqb a "013") eqn:E;
    [reflexivity | now rewrite E].
Qed.

Lemma newlines_to_spaces_blank (m : string) :
  all_chars Py.is_space (newlines_to_spaces m) = all_chars Py.is_space m.
Proof.
  unfold newlines_to_spaces.
  induction m as [|a m IH]; simpl; [reflexivity|]. rewrite IH. f_equal.
  destruct (Ascii.eqb_spec a "010") as [->|N1]; [reflexivity|].
  destruct (Ascii.eqb_spec a "013") as [->|N2]; reflexivity.
Qed.

(** A kept fragment, cleaned: trimmed, not empty, without line breaks. *)
Lemma clean_fragment_shape (m : string) :
  discarded m = false ->
  Py.strip (clean_fragment m) = clean_fragment m
  /\ clean_fragment m <> ""
  /\ no_line_break (clean_fragment m) = true.
Proof.
  intros Hd. unfold clean_fragment. split; [apply strip_by_idem|]. split.
  - intros E. apply String.eqb_eq in E.
    rewrite strip_blank, newlines_to_spaces_blank in E.
    unfold discarded in Hd. now rewrite E in Hd.
  - destruct (strip_infix (newlines_to_spaces m)) as (pre & post & E).
    pose proof (newlines_to_spaces_no_break m) as H.
    rewrite E in H. exact (all_chars_infix _ _ _ _ H).
Qed.

(** C6.  The market list is the list the specification describes: the
    block split on the numeric markers, the fragments that are blank or
    have 3 characters or fewer discarded, each kept fragment trimmed (its
    line breaks turned into spaces first), exact duplicates removed with
    the first occurrence kept in place; with no block it is empty.  The
    names are pairwise distinct; they are the trimmed kept fragments; each
    is trimmed, not empty and free of line breaks. *)
Theorem C6_covered_markets_as_specified (raw_text : string) :
  covered_markets (parse_text_to_json raw_text)
  = match market_block raw_text with
    | Some raw_block => markets_as_specified raw_block
    | None => []
    end
  /\ NoDup (covered_markets (parse_text_to_json raw_text))
  /\ (forall name,
         In name (covered_markets (parse_text_to_json raw_text)) <->
         exists raw_block m,
           market_block raw_text = Some raw_block
           /\ In m (Re.split marker_re raw_block)
           /\ discarded m = false
           /\ name = clean_fragment m)
  /\ (forall name,
         In name (covered_markets (parse_text_to_json raw_text)) ->
         Py.strip name = name
         /\ name <> ""
         /\ no_line_break name = true).
Proof.
  assert (E : covered_markets (parse_text_to_json raw_text)
              = match market_block raw_text with
                | Some raw_block => markets_as_specified raw_block
                | None => []
                end).
  { simpl. unfold market_extraction, markets_of_block, markets_as_specified.
    destruct (market_block raw_text) as [raw_block|]; [|reflexivity].
    rewrite dict_fromkeys_first_seen. do 2 f_equal.
    apply filter_ext. intros m. apply keep_fragment_spec. }
  assert (M : forall name,
             In name (covered_markets (parse_text_to_json raw_text)) <->
             exists raw_block m,
               market_block raw_text = Some raw_block
               /\ In m (Re.split marker_re raw_block)
               /\ discarded m = false
               /\ name = clean_fragment m).
  { rewrite E. intros name.
    destruct (market_block raw_text) as [raw_block|].
    - unfold markets_as_specified.
      rewrite distinct_first_seen_in, in_map_iff. split.
      + intros (m & <- & Hm). apply filter_In in Hm. destruct Hm as [Hin Hd].
        apply negb_true_iff in Hd. exists raw_block, m. auto.
      + intros (b & m & Hb & Hin & Hd & ->). injection Hb as <-.
        exists m. split; [reflexivity|]. apply filter_In.
        now rewrite Hd.
    - simpl. split; [tauto|]. intros (b & m & Hb & _). discriminate. }
  split; [exact E|]. split; [|split; [exact M|]].
  - rewrite E. destruct (market_block raw_text);
      [apply distinct_first_seen_nodup | constructor].
  - intros name Hin. apply M in Hin.
    destruct Hin as (b & m & _ & _ & Hd & ->).
    now apply clean_fragment_shape.
Qed.

Lemma C6_covered_markets_as_specified_witness :
  Py.strip "Market A" = "Market A"
  /\ "Market A" <> ""
  /\ no_line_break "Market A" = true.
Proof.
  apply (proj2 (proj2 (proj2
           (C6_covered_markets_as_specified
              "Covered markets: 1. Market A 2. Market B Page 2")))).
  vm_compute. left. reflexivity.
Defined.

(** Scenario D, and two inputs at the edges: no block, and a last
    fragment that is 3 characters long once trimmed (it is measured
    before it is trimmed, with the blank that follows it). *)
Lemma covered_markets_examples :
  covered_markets
    (parse_text_to_json "Covered markets: 1. Market A 2. Market B Page 2")
  = ["Market A"; "Market B"]
  /\ covered_markets
       (parse_text_to_json
          "Covered markets: 1. Market A 2. Market B 3. Market A Page 2")
     = ["Market A"; "Market B"]
  /\ covered_markets (parse_text_to_json "FRUITS") = []
  /\ covered_markets (parse_text_to_json "Covered markets: 1. ABC Page 2")
     = ["ABC"]
  /\ covered_markets (parse_text_to_json "Covered markets: 1. ABC 2. Market B")
     = ["Market B"].
Proof. repeat split; vm_compute; reflexivity. Qed.

(** ** Containment up to case *)

Lemma in_all_ascii (c : ascii) : In c all_ascii.
Proof.
  unfold all_ascii. rewrite <- (ascii_nat_embedding c).
  apply in_map. apply in_seq. pose proof (nat_ascii_bounded c). lia.
Qed.

Lemma case_maps_agree_all :
  forallb (fun c =>
    forallb (fun d =>
      Bool.eqb (Ascii.eqb (Py.upper_char c) (Py.upper_char d))
               (Ascii.eqb (Py.lower_char c) (Py.lower_char d)))
      all_ascii) all_ascii = true.
Proof. vm_compute. reflexivity. Qed.

Lemma case_maps_agree (c d : ascii) :
  Py.upper_char c = Py.upper_char d <-> Py.lower_char c = Py.lower_char d.
Proof.
  pose proof case_maps_agree_all as H.
  rewrite forallb_forall in H. specialize (H c (in_all_ascii c)).
  rewrite forallb_forall in H. specialize (H d (in_all_ascii d)).
  apply Bool.eqb_prop in H. rewrite <- !Ascii.eqb_eq. now rewrite H.
Qed.

Lemma upper_eq_lower_eq (m k : string) :
  Py.upper m = Py.upper k <-> Py.lower m = Py.lower k.
Proof.
  unfold Py.upper, Py.lower. revert k.
  induction m as [|c m IH]; intros [|d k]; simpl; try (split; congruence).
  split; intros H; injection H as Hc H; f_equal;
    try (now apply case_maps_agree); now apply IH.
Qed.

(** The code's test, an upper-cased copy against an upper-case keyword, is
    containment up to case. *)
Lemma contains_upper_nocase (k s : string) :
  Py.contains (Py.upper k) (Py.upper s) = true <-> occurs_nocase k s.
Proof.
  rewrite contains_app. unfold occurs_nocase. split.
  - intros (pre & post & H). unfold Py.upper in H at 1.
    apply map_chars_split in H. destruct H as (pre' & r & -> & _ & H).
    apply map_chars_split in H. destruct H as (mid & post' & -> & H & _).
    exists pre', mid, post'. split; [reflexivity|].
    now apply upper_eq_lower_eq.
  - intros (pre & mid & post & -> & H). apply upper_eq_lower_eq in H.
    exists (Py.upper pre), (Py.upper post).
    unfold Py.upper in *. now rewrite !map_chars_app, H.
Qed.

Lemma occurs_nocase_infix (k s t pre post : string) :
  s = pre +++ t +++ post -> occurs_nocase k t -> occurs_nocase k s.
Proof.
  intros -> (a & mid & b & -> & H).
  exists (pre +++ a), mid, (b +++ post). split; [|exact H].
  now rewrite !sapp_assoc.
Qed.

Lemma name_segment_infix (line : string) (start : nat) :
  exists pre post, line = pre +++ name_segment line start +++ post.
Proof.
  unfold name_segment.
  destruct (strip_infix line) as (a & b & Hl).
  destruct (strip_infix (Py.take start (Py.strip line))) as (c & d & Ht).
  pose proof (take_drop start (Py.strip line)) as Hs.
  exists (a +++ c), (d +++ Py.drop start (Py.strip line) +++ b).
  rewrite Hl at 1. rewrite Hs at 1. rewrite Ht at 1.
  now rewrite !sapp_assoc.
Qed.

(** ** Origin *)

Lemma determine_origin_cases (raw_line cat : string) :
  ((occurs_nocase "Imported" raw_line \/ occurs_nocase "Imported" cat)
   /\ determine_origin raw_line cat = "Imported")
  \/ (~ occurs_nocase "Imported" raw_line
      /\ ~ occurs_nocase "Imported" cat
      /\ determine_origin raw_line cat = "Local").
Proof.
  unfold determine_origin.
  change "IMPORTED" with (Py.upper "Imported").
  destruct (Py.contains (Py.upper "Imported") (Py.upper raw_line)) eqn:E1;
    [left; split; [left; now apply contains_upper_nocase | reflexivity]|].
  destruct (Py.contains (Py.upper "Imported") (Py.upper cat)) eqn:E2;
    [left; split; [right; now apply contains_upper_nocase | reflexivity]|].
  right. repeat split; try reflexivity;
    intros H; apply contains_upper_nocase in H; congruence.
Qed.

Lemma parsed_origin_populated (line cat : string) (row : PriceRow) :
  parse_smart_row line cat = Some row ->
  origin row = Some "Imported" \/ origin row = Some "Local".
Proof.
  intros H.
  destruct (parse_smart_row_some _ _ _ H) as (start & token & _ & _ & ->).
  unfold built_row. cbn [origin].
  destruct (determine_origin_cases (name_segment line start) cat)
    as [[_ ->]|(_ & _ & ->)]; auto.
Qed.

(** C5.  The origin of a parsed row is set: Imported when the name
    segment or the category label contains the word Imported in any case,
    Local otherwise.  A line that has the word neither in itself nor in
    its category gives Local.  The same two values are the only origins in
    a result. *)
Theorem C5_origin_imported_or_local :
  (forall line cat row,
      parse_smart_row line cat = Some row ->
      exists start token,
        price_match (Py.strip line) = Some (start, token)
        /\ (((occurs_nocase "Imported" (name_segment line start)
              \/ occurs_nocase "Imported" cat)
             /\ origin row = Some "Imported")
            \/ (~ occurs_nocase "Imported" (name_segment line start)
                /\ ~ occurs_nocase "Imported" cat
                /\ origin row = Some "Local"))
        /\ (~ occurs_nocase "Imported" line ->
            ~ occurs_nocase "Imported" cat ->
            origin row = Some "Local"))
  /\ (forall raw_text row,
         In row (price_data (parse_text_to_json raw_text)) ->
         origin row = Some "Imported" \/ origin row = Some "Local").
Proof.
  split.
  - intros line cat row H.
    destruct (parse_smart_row_some _ _ _ H) as (start & token & Hm & _ & ->).
    exists start, token. split; [exact Hm|].
    unfold built_row. cbn [origin].
    destruct (determine_origin_cases (name_segment line start) cat)
      as [[Ho ->]|(Hn1 & Hn2 & ->)].
    + split; [left; auto|]. intros Hl Hc. exfalso.
      destruct Ho as [Ho|Ho]; [|contradiction].
      apply Hl. destruct (name_segment_infix line start) as (pre & post & E).
      exact (occurs_nocase_infix _ _ _ _ _ E Ho).
    + split; [right; auto | auto].
  - intros raw_text row Hin. simpl in Hin.
    pose proof (row_processing_invariant
                  (fun r => origin r = Some "Imported"
                            \/ origin r = Some "Local")
                  (fun e p H => H) parsed_origin_populated raw_text) as HF.
    rewrite Forall_forall in HF. now apply HF.
Qed.

(** A garlic line marked imported in lower case, under SPICES. *)
Lemma C5_origin_imported_or_local_witness :
  exists start token,
    price_match (Py.strip "Garlic imported 300.00") = Some (start, token)
    /\ (((occurs_nocase "Imported"
            (name_segment "Garlic imported 300.00" start)
          \/ occurs_nocase "Imported" "SPICES")
         /\ origin (mkPriceRow "SPICES" "Garlic" (Some "Imported") None
                               (Some (mkdecimal 30000 2)))
            = Some "Imported")
        \/ (~ occurs_nocase "Imported"
              (name_segment "Garlic imported 300.00" start)
            /\ ~ occurs_nocase "Imported" "SPICES"
            /\ origin (mkPriceRow "SPICES" "Garlic" (Some "Imported") None
                                  (Some (mkdecimal 30000 2)))
               = Some "Local"))
    /\ (~ occurs_nocase "Imported" "Garlic imported 300.00" ->
        ~ occurs_nocase "Imported" "SPICES" ->
        origin (mkPriceRow "SPICES" "Garlic" (Some "Imported") None
                           (Some (mkdecimal 30000 2)))
        = Some "Local").
Proof.
  apply (proj1 C5_origin_imported_or_local "Garlic imported 300.00" "SPICES").
  vm_compute. reflexivity.
Defined.

(** ** The matcher is sound *)

Section MatcherSound.

Import Re ReSem.

Variable R : Type.

Lemma star_loop_sound (r : regex) (g : bool)
  (IH : forall p c (k : cont R) res,
      rmatch r p c k = Some res ->
      exists p' c', path r p c p' c' /\ k p' c' = Some res)
  (fuel : nat) :
  forall p c (k : cont R) res,
    star_loop (rmatch r) g fuel p c k = Some res ->
    exists p' c', path (Star g r) p c p' c' /\ k p' c' = Some res.
Proof.
  induction fuel as [|fuel IHf]; intros p c k res H; simpl in H.
  - exists p, c. split; [constructor | exact H].
  - assert (Hstep : forall res',
      rmatch r p c (fun p' c' =>
        if idx p <? idx p' then star_loop (rmatch r) g fuel p' c' k
        else None) = Some res' ->
      exists p' c', path (Star g r) p c p' c' /\ k p' c' = Some res').
    { intros res' H'. apply IH in H'. destruct H' as (p1 & c1 & Hp1 & H').
      destruct (idx p <? idx p1); [|discriminate].
      apply IHf in H'. destruct H' as (p2 & c2 & Hp2 & H').
      exists p2, c2. split; [|exact H'].
      now apply path_star_step with (p1 := p1) (c1 := c1). }
    assert (Hstop : forall res',
      k p c = Some res' ->
      exists p' c', path (Star g r) p c p' c' /\ k p' c' = Some res').
    { intros res' H'. exists p, c. split; [constructor | exact H']. }
    destruct g.
    + destruct (rmatch r p c _) as [x|] eqn:E.
      * injection H as <-. now apply Hstep.
      * now apply Hstop.
    + destruct (k p c) as [x|] eqn:E.
      * injection H as <-. now apply Hstop.
      * now apply Hstep.
Qed.

(** An answer of the matcher comes from a path through the pattern that
    the continuation accepts. *)
Lemma rmatch_sound (r : regex) :
  forall p c (k : cont R) res,
    rmatch r p c k = Some res ->
    exists p' c', path r p c p' c' /\ k p' c' = Some res.
Proof.
  induction r as [|f|r1 IH1 r2 IH2|r1 IH1 r2 IH2|g r IH|r IH| | | |];
    intros p c k res H; cbn [rmatch] in H.
  - exists p, c. split; [constructor | exact H].
  - destruct (rest p) as [|a s] eqn:E; [discriminate|].
    destruct (f a) eqn:Ef; [|discriminate].
    eexists _, c. split; [|exact H]. now constructor.
  - apply IH1 in H. destruct H as (p1 & c1 & Hp1 & H).
    apply IH2 in H. destruct H as (p2 & c2 & Hp2 & H).
    exists p2, c2. split; [|exact H]. now apply path_seq with p1 c1.
  - destruct (rmatch r1 p c k) as [x|] eqn:E.
    + injection H as <-. apply IH1 in E. destruct E as (p' & c' & Hp & E).
      exists p', c'. split; [now apply path_alt_l | exact E].
    + apply IH2 in H. destruct H as (p' & c' & Hp & H).
      exists p', c'. split; [now apply path_alt_r | exact H].
  - now apply (star_loop_sound r g IH) in H.
  - apply IH in H. destruct H as (p' & c' & Hp & H).
    eexists p', _. split; [|exact H]. now apply path_cap with (c' := c').
  - destruct (idx p =? 0) eqn:E; [|discriminate].
    exists p, c. split; [|exact H]. constructor. now apply Nat.eqb_eq.
  - destruct (at_eol p) eqn:E; [|discriminate].
    exists p, c. split; [|exact H]. now constructor.
  - destruct (at_end p) eqn:E; [|discriminate].
    exists p, c. split; [|exact H]. now constructor.
  - destruct (xorb (word_before p) (word_after p)) eqn:E; [|discriminate].
    exists p, c. split; [|exact H]. now constructor.
Qed.

End MatcherSound.

(** ** What a path consumes and captures *)

Section Paths.

Import Re ReSem.

Lemma take_app_length (w x : string) :
  Py.take (String.length w) (w +++ x) = w.
Proof. induction w as [|a w IH]; simpl; [now destruct x | congruence]. Qed.

Lemma path_consumes (r : regex) (p : pos) (c : caps) (p' : pos) (c' : caps) :
  path r p c p' c' ->
  exists w,
    rest p = w +++ rest p'
    /\ idx p' = idx p + String.length w
    /\ lang r w.
Proof.
  induction 1 as
    [p c|f p c a s E Ef
    |r1 r2 p c p1 c1 p2 c2 _ (w1 & E1 & I1 & L1) _ (w2 & E2 & I2 & L2)
    |r1 r2 p c p' c' _ (w & E & I & L)
    |r1 r2 p c p' c' _ (w & E & I & L)
    |g r p c
    |g r p c p1 c1 p2 c2 _ (w1 & E1 & I1 & L1) _ (w2 & E2 & I2 & L2)
    |r p c p' c' _ (w & E & I & L)
    |p c E|p c E|p c E|p c E];
    try (exists ""; simpl; repeat split; auto; constructor).
  - exists (String a ""). simpl. repeat split; [assumption | lia | eauto].
  - exists (w1 +++ w2). rewrite sapp_assoc, <- E2, <- E1, slength_app.
    repeat split; [lia|]. simpl. eauto.
  - exists w. simpl. auto.
  - exists w. simpl. auto.
  - exists (w1 +++ w2). rewrite sapp_assoc, <- E2, <- E1, slength_app.
    repeat split; [lia|]. simpl in *. now constructor.
  - exists w. simpl. auto.
Qed.

Lemma path_without_cap (r : regex) (p : pos) (c : caps) (p' : pos)
  (c' : caps) :
  path r p c p' c' -> has_cap r = false -> c' = c.
Proof.
  induction 1; simpl; intros Hc; try reflexivity;
    try (apply orb_false_iff in Hc; destruct Hc as [Hc1 Hc2]);
    try discriminate; auto.
  - rewrite IHpath2, IHpath1; auto.
  - rewrite IHpath2, IHpath1; auto.
Qed.

Lemma path_cap_text (r : regex) (p : pos) (c : caps) (p' : pos) (c' : caps) :
  path (Cap r) p c p' c' ->
  exists w, c' = Some (idx p, w) /\ rest p = w +++ rest p' /\ lang r w.
Proof.
  inversion 1 as [| | | | | | |r0 p0 c0 p0' c0' Hp| | | |]; subst.
  destruct (path_consumes _ _ _ _ _ Hp) as (w & E & I & L).
  exists w. repeat split; auto.
  replace (idx p' - idx p) with (String.length w) by lia.
  rewrite E. now rewrite take_app_length.
Qed.

Lemma search_from_sound (r : regex) (s : string) :
  forall i pv m,
    search_from r i pv s = Some m ->
    exists pre p p' c',
      s = pre +++ rest p
      /\ idx p = i + String.length pre
      /\ path r p None p' c'
      /\ m = mkmatch (idx p) (idx p') (group1 c').
Proof.
  induction s as [|a s IH]; intros i pv m H; simpl in H;
    unfold match_at in H.
  - destruct (rmatch r _ None _) as [x|] eqn:E; [|discriminate].
    injection H as <-. apply rmatch_sound in E.
    destruct E as (p' & c' & Hp & E). injection E as <-.
    exists "", (mkpos i pv ""), p', c'. simpl. repeat split; auto.
  - destruct (rmatch r _ None _) as [x|] eqn:E.
    + injection H as <-. apply rmatch_sound in E.
      destruct E as (p' & c' & Hp & E). injection E as <-.
      exists "", (mkpos i pv (String a s)), p', c'. simpl.
      repeat split; auto.
    + apply IH in H. destruct H as (pre & p & p' & c' & -> & Hi & Hp & ->).
      exists (String a pre), p, p', c'. simpl. repeat split; auto. lia.
Qed.

Lemma star_space_blank (w : string) :
  star (lang space) w -> all_chars Py.is_space w = true.
Proof.
  induction 1 as [|w1 w2 (a & -> & Ha) _ IH]; [reflexivity|].
  simpl. now rewrite Ha, IH.
Qed.

(** What a match of the price pattern looks like in the line: the text
    before the match, at most one whitespace character, the token, and
    nothing but whitespace after it.  Group 1 is always set. *)
Lemma search_price_re_shape (line : string) (m : rmatch_result) :
  search price_re line = Some m ->
  exists token sep trailing,
    m_group1 m = Some token
    /\ lang token_re token
    /\ line = Py.take (m_start m) line +++ sep +++ token +++ trailing
    /\ all_chars Py.is_space sep = true
    /\ String.length sep <= 1
    /\ all_chars Py.is_space trailing = true.
Proof.
  intros H. apply search_from_sound in H.
  destruct H as (pre & p & p' & c' & El & Hi & Hp & ->). unfold price_re in Hp.
  inversion Hp as [| |r1 r2 q0 d0 p1 c1 q2 d2 H1 H2| | | | | | | | |]; subst.
  inversion H2 as [| |r1 r2 q0 d0 p2 c2 q2 d2 H3 H4| | | | | | | | |]; subst.
  inversion H4 as [| |r1 r2 q0 d0 p3 c3 q2 d2 H5 H6| | | | | | | | |]; subst.
  inversion H6 as [| | | | | | | | |q0 d0 Heol| |]; subst.
  destruct (path_consumes _ _ _ _ _ H1) as (sep & E1 & _ & L1).
  destruct (path_consumes _ _ _ _ _ H5) as (ws & E5 & _ & L5).
  pose proof (path_without_cap _ _ _ _ _ H5 eq_refl) as Ec. subst c'.
  apply path_cap_text in H3. destruct H3 as (token & -> & E3 & L3).
  exists token, sep, (ws +++ rest p'). cbn [m_group1 m_start group1].
  split; [reflexivity|]. split; [exact L3|]. split.
  - simpl in Hi. rewrite Hi, take_app_length.
    now rewrite E1, E3, E5.
  - assert (Hsep : all_chars Py.is_space sep = true
                   /\ String.length sep <= 1).
    { destruct L1 as [->|(a & -> & Ha)]; simpl; [auto|].
      rewrite Ha. auto. }
    destruct Hsep as [Hs1 Hs2]. repeat split; auto.
    rewrite all_chars_app, (star_space_blank _ L5). simpl.
    unfold at_eol in Heol. destruct (rest p') as [|a [|b t]];
      try discriminate; [reflexivity|].
    apply Ascii.eqb_eq in Heol. now subst a.
Qed.

Lemma search_price_re_group (line : string) (m : rmatch_result) :
  search price_re line = Some m ->
  exists token, m_group1 m = Some token /\ lang token_re token.
Proof.
  intros H. destruct (search_price_re_shape _ _ H)
    as (token & _ & _ & Hg & L & _).
  eauto.
Qed.

End Paths.

Lemma price_match_token (line : string) (start : nat) (token : string) :
  price_match line = Some (start, token) -> ReSem.lang token_re token.
Proof.
  unfold price_match. intros H.
  destruct (Re.search price_re line) as [m|] eqn:E; [|discriminate].
  destruct (search_price_re_group _ _ E) as (w & Hw & L).
  rewrite Hw in H. now injection H as _ <-.
Qed.

(** The token that [price_match] reports is a trailing one. *)
Lemma price_match_trailing (line : string) (start : nat) (token : string) :
  price_match line = Some (start, token) ->
  exists sep trailing,
    line = Py.take start line +++ sep +++ token +++ trailing
    /\ all_chars Py.is_space sep = true
    /\ String.length sep <= 1
    /\ all_chars Py.is_space trailing = true.
Proof.
  unfold price_match. intros H.
  destruct (Re.search price_re line) as [m|] eqn:E; [|discriminate].
  destruct (search_price_re_shape _ _ E)
    as (w & sep & trailing & Hw & _ & El & Hs & Hl & Ht).
  rewrite Hw in H. injection H as <- <-.
  exists sep, trailing. repeat split; assumption.
Qed.

(** The branch of [price_match] for an unset group is never taken. *)
Lemma price_match_iff_search (line : string) :
  price_match line = None <-> Re.search price_re line = None.
Proof.
  unfold price_match.
  destruct (Re.search price_re line) as [m|] eqn:E; [|tauto].
  destruct (search_price_re_group _ _ E) as (w & -> & _).
  split; discriminate.
Qed.

(** ** The patterns of [re.sub] and [re.split] never match the empty string *)

Section NonEmptyMatches.

Import Re ReSem.

Variable R : Type.

Lemma star_loop_ext (r : regex) (g : bool)
  (IH : forall p c (k1 k2 : cont R),
      (forall p' c', path r p c p' c' -> k1 p' c' = k2 p' c') ->
      rmatch r p c k1 = rmatch r p c k2)
  (fuel : nat) :
  forall p c (k1 k2 : cont R),
    (forall p' c', path (Star g r) p c p' c' -> k1 p' c' = k2 p' c') ->
    star_loop (rmatch r) g fuel p c k1 = star_loop (rmatch r) g fuel p c k2.
Proof.
  induction fuel as [|fuel IHf]; intros p c k1 k2 H; simpl.
  - apply H. constructor.
  - rewrite (H p c (path_star_stop g r p c)).
    rewrite (IH p c _
               (fun p' c' =>
                  if idx p <? idx p' then star_loop (rmatch r) g fuel p' c' k2
                  else None)); [reflexivity|].
    intros p1 c1 Hp1. destruct (idx p <? idx p1); [|reflexivity].
    apply IHf. intros p2 c2 Hp2. apply H.
    now apply path_star_step with (p1 := p1) (c1 := c1).
Qed.

(** The matcher only consults its continuation at the ends of paths. *)
Lemma rmatch_ext (r : regex) :
  forall p c (k1 k2 : cont R),
    (forall p' c', path r p c p' c' -> k1 p' c' = k2 p' c') ->
    rmatch r p c k1 = rmatch r p c k2.
Proof.
  induction r as [|f|r1 IH1 r2 IH2|r1 IH1 r2 IH2|g r IH|r IH| | | |];
    intros p c k1 k2 H; cbn [rmatch].
  - apply H. constructor.
  - destruct (rest p) as [|a s] eqn:E; [reflexivity|].
    destruct (f a) eqn:Ef; [|reflexivity]. apply H. now constructor.
  - apply IH1. intros p1 c1 Hp1. apply IH2. intros p2 c2 Hp2.
    apply H. now apply path_seq with p1 c1.
  - rewrite (IH1 p c k1 k2), (IH2 p c k1 k2); [reflexivity| |];
      intros p' c' Hp; apply H; [now apply path_alt_r | now apply path_alt_l].
  - apply (star_loop_ext r g IH). exact H.
  - apply IH. intros p' c' Hp.
    apply (H p' (Some (idx p, Py.take (idx p' - idx p) (rest p)))).
    now apply path_cap with (c' := c').
  - destruct (idx p =? 0) eqn:E; [|reflexivity].
    apply H. constructor. now apply Nat.eqb_eq.
  - destruct (at_eol p) eqn:E; [|reflexivity]. apply H. now constructor.
  - destruct (at_end p) eqn:E; [|reflexivity]. apply H. now constructor.
  - destruct (xorb (word_before p) (word_after p)) eqn:E; [|reflexivity].
    apply H. now constructor.
Qed.

End NonEmptyMatches.

Lemma sapp_empty (a b : string) : a +++ b = "" -> a = "" /\ b = "".
Proof. destruct a; simpl; [auto | discriminate]. Qed.

Lemma not_nullable_nonempty (r : Re.regex) (w : string) :
  nullable r = false -> ReSem.lang r w -> w <> "".
Proof.
  revert w.
  induction r as [|f|r1 IH1 r2 IH2|r1 IH1 r2 IH2|g r IH|r IH| | | |];
    intros w Hn Hl; simpl in Hn; try discriminate.
  - destruct Hl as (a & -> & _). discriminate.
  - destruct Hl as (w1 & w2 & -> & L1 & L2). intros E.
    apply sapp_empty in E. destruct E as [E1 E2].
    apply andb_false_iff in Hn. destruct Hn as [Hn|Hn].
    + now apply (IH1 w1 Hn L1).
    + now apply (IH2 w2 Hn L2).
  - apply orb_false_iff in Hn. destruct Hn as [Hn1 Hn2].
    destruct Hl as [L|L]; [now apply IH1 | now apply IH2].
  - now apply IH.
Qed.

(** For a pattern that cannot match the empty string, an attempt that
    must consume a character is an attempt. *)
Lemma match_at_nonempty_is_match_at (r : Re.regex) (p : Re.pos) :
  nullable r = false -> Re.match_at_nonempty r p = Re.match_at r p.
Proof.
  intros Hn. unfold Re.match_at_nonempty, Re.match_at.
  apply rmatch_ext. intros p' c' Hp.
  destruct (path_consumes _ _ _ _ _ Hp) as (w & _ & I & L).
  pose proof (not_nullable_nonempty r w Hn L) as Hw.
  assert (Hlt : Re.idx p < Re.idx p').
  { destruct w; [congruence|]. simpl in I. lia. }
  apply Nat.ltb_lt in Hlt. now rewrite Hlt.
Qed.

Lemma substitution_patterns_non_nullable :
  Forall (fun r => nullable r = false) substitution_patterns.
Proof. repeat constructor. Qed.

(** No star of any pattern of the source iterates over a body that could
    match the empty string. *)
Lemma patterns_star_bodies_consume :
  forallb star_bodies_consume
          (price_re :: market_re :: substitution_patterns) = true.
Proof. reflexivity. Qed.

(** The price pattern on some lines: [start()] and [group(1)]. *)
Lemma price_match_examples :
  map price_match
      [ "a 1,234.50"; "a 1234.50"; "12.50 -"; "x $n/a$"; "x,123.45";
        "x 1,23.45"; "-"; "a  12.345"; "Tomato 45.00  " ]
  = [ Some (1, "1,234.50"); None; Some (5, "-"); Some (1, "$n/a$"); None;
      None; Some (0, "-"); None; Some (6, "45.00") ].
Proof. vm_compute. reflexivity. Qed.

(** ** Number tokens convert *)

Lemma prefix_char (a c : ascii) (s : string) :
  prefix (String a "") (String c s) = Ascii.eqb a c.
Proof.
  cbn [prefix]. destruct (ascii_dec a c) as [->|N].
  - rewrite Ascii.eqb_refl. now destruct s.
  - symmetry. now apply Ascii.eqb_neq.
Qed.

Lemma replace_comma (s : string) :
  Py.replace "," "" s = keep_chars not_comma s.
Proof.
  unfold Py.replace. induction s as [|c s IH]; [reflexivity|].
  cbn [Py.replace_aux keep_chars]. rewrite prefix_char.
  unfold not_comma at 1. rewrite (Ascii.eqb_sym c ",").
  destruct (Ascii.eqb "," c); cbn; congruence.
Qed.

Lemma keep_chars_app (f : ascii -> bool) (a b : string) :
  keep_chars f (a +++ b) = keep_chars f a +++ keep_chars f b.
Proof.
  induction a as [|x a IH]; simpl; [reflexivity|].
  destruct (f x); simpl; congruence.
Qed.

Lemma digit_not_comma (a : ascii) : Py.is_digit a = true -> not_comma a = true.
Proof.
  intros H. unfold not_comma. destruct (Ascii.eqb_spec a ","); [|reflexivity].
  subst a. discriminate.
Qed.

(** A word of [\d{1,3}]: one to three digits. *)
Lemma lang_digits_1_3 (w : string) :
  ReSem.lang digits_1_3 w ->
  all_chars Py.is_digit w = true
  /\ keep_chars not_comma w = w
  /\ 1 <= String.length w <= 3.
Proof.
  intros (w1 & w2 & -> & (a & -> & Ha) & H2).
  pose proof (digit_not_comma a Ha) as Na.
  destruct H2 as [(w3 & w4 & -> & (b & -> & Hb) & H4)| ->].
  - pose proof (digit_not_comma b Hb) as Nb.
    destruct H4 as [(c & -> & Hc)| ->].
    + pose proof (digit_not_comma c Hc) as Nc.
      simpl. rewrite Ha, Hb, Hc, Na, Nb, Nc. repeat split; lia.
    + simpl. rewrite Ha, Hb, Na, Nb. repeat split; lia.
  - simpl. rewrite Ha, Na. repeat split; lia.
Qed.

(** A word of [(?:,\d{3})*]: digits, once the commas are gone. *)
Lemma lang_comma_groups (w : string) :
  ReSem.star
    (ReSem.lang
       (Re.Seq (Re.lit ",") (Re.Seq Re.digit (Re.Seq Re.digit Re.digit)))) w ->
  all_chars Py.is_digit (keep_chars not_comma w) = true.
Proof.
  induction 1 as [|w1 w2 H1 _ IH]; [reflexivity|].
  destruct H1 as (u & v & -> & (x & -> & Hx) & v1 & v2 & -> & (a & -> & Ha)
                  & v3 & v4 & -> & (b & -> & Hb) & (c & -> & Hc)).
  apply Ascii.eqb_eq in Hx. subst x.
  pose proof (digit_not_comma a Ha) as Na.
  pose proof (digit_not_comma b Hb) as Nb.
  pose proof (digit_not_comma c Hc) as Nc.
  simpl. rewrite Na, Nb, Nc. simpl. now rewrite Ha, Hb, Hc, IH.
Qed.

(** A number token without its commas: digits, a point, two digits. *)
Lemma lang_number_shape (w : string) :
  ReSem.lang number_re w ->
  exists digits x y,
    keep_chars not_comma w = digits +++ String "." (String x (String y ""))
    /\ all_chars Py.is_digit digits = true
    /\ 1 <= String.length digits
    /\ Py.is_digit x = true
    /\ Py.is_digit y = true.
Proof.
  intros (w1 & w2 & -> & H1 & w3 & w4 & -> & H3 & w5 & w6 & ->
          & (d & -> & Hd) & w7 & w8 & -> & (x & -> & Hx) & (y & -> & Hy)).
  apply Ascii.eqb_eq in Hd. subst d.
  apply lang_digits_1_3 in H1. destruct H1 as (D1 & K1 & L1).
  apply lang_comma_groups in H3.
  exists (w1 +++ keep_chars not_comma w3), x, y.
  rewrite !keep_chars_app, K1, sapp_assoc. simpl.
  rewrite (digit_not_comma x Hx), (digit_not_comma y Hy).
  rewrite all_chars_app, D1, H3, slength_app.
  repeat split; auto; lia.
Qed.

Lemma read_digits_run (digits rest : string) :
  all_chars Py.is_digit digits = true ->
  match rest with
  | String c _ => Py.is_digit c = false
  | EmptyString => True
  end ->
  forall acc n,
    exists acc',
      read_digits acc n (digits +++ rest)
      = (acc', n + String.length digits, rest).
Proof.
  intros Hd Hr. induction digits as [|a digits IH]; intros acc n; simpl.
  - exists acc. rewrite Nat.add_0_r.
    destruct rest as [|c rest]; simpl; [reflexivity|]. now rewrite Hr.
  - simpl in Hd. apply andb_true_iff in Hd. destruct Hd as [Ha Hd].
    rewrite Ha. destruct (IH Hd (acc * 10 + digit_value a)%N (S n))
      as [acc' E].
    exists acc'. rewrite E. f_equal. f_equal. lia.
Qed.

(** [float] succeeds on digits, a point and two digits. *)
Lemma py_float_two_places (digits : string) (x y : ascii) :
  all_chars Py.is_digit digits = true ->
  1 <= String.length digits ->
  Py.is_digit x = true -> Py.is_digit y = true ->
  exists m,
    py_float (digits +++ String "." (String x (String y "")))
    = Some (mkdecimal m 2).
Proof.
  intros Hd Hl Hx Hy. unfold py_float.
  destruct (read_digits_run digits (String "." (String x (String y "")))
              Hd eq_refl 0%N 0) as [ip E].
  rewrite E.
  destruct (read_digits_run (String x (String y "")) ""
              ltac:(simpl; now rewrite Hx, Hy) I ip 0) as [m E'].
  rewrite sapp_nil_r in E'. rewrite E'. simpl.
  destruct (String.length digits) as [|n]; [lia|]. simpl. eauto.
Qed.

Lemma number_not_sentinel (digits : string) (x y : ascii) :
  is_sentinel (digits +++ String "." (String x (String y ""))) = false.
Proof.
  unfold is_sentinel. apply orb_false_iff. split; apply String.eqb_neq.
  - destruct digits as [|a [|b digits]]; simpl; congruence.
  - destruct digits as [|a [|b [|c [|d [|e [|f digits]]]]]];
      simpl; congruence.
Qed.

Lemma lang_token_cases (token : string) :
  ReSem.lang token_re token ->
  ReSem.lang number_re token \/ token = "$n/a$" \/ token = "-".
Proof.
  intros [H|[H|H]]; [now left | right; left | right; right].
  - destruct H as (w1 & w2 & -> & (a & -> & Ha) & w3 & w4 & -> & (b & -> & Hb)
                   & w5 & w6 & -> & (c & -> & Hc) & w7 & w8 & ->
                   & (d & -> & Hd) & (e & -> & He)).
    apply Ascii.eqb_eq in Ha, Hb, Hc, Hd, He. now subst.
  - destruct H as (a & -> & Ha). apply Ascii.eqb_eq in Ha. now subst.
Qed.

(** ** Price conversion *)

Lemma number_token_converts (line : string) (start : nat) (token : string) :
  price_match line = Some (start, token) ->
  token <> "-" -> token <> "$n/a$" ->
  exists m,
    py_float (Py.replace "," "" token) = Some (mkdecimal m 2)
    /\ convert_price (Py.replace "," "" token) = Some (mkdecimal m 2).
Proof.
  intros Hm Hd Hn. apply price_match_token in Hm.
  destruct (lang_token_cases _ Hm) as [H|[H|H]]; try contradiction.
  destruct (lang_number_shape _ H) as (digits & x & y & E & Hdig & Hl & Hx & Hy).
  destruct (py_float_two_places digits x y Hdig Hl Hx Hy) as [m Hf].
  exists m. unfold convert_price.
  rewrite replace_comma, E, number_not_sentinel, Hf. auto.
Qed.

(** C9.  A token that the price pattern matched and that is not a
    sentinel always converts, to a decimal with two places, so the
    conversion's failure branch is not reached; a failed conversion would
    leave the price absent; and the row is returned whatever the
    conversion gives. *)
Theorem C9_matched_number_converts :
  (forall line start token,
      price_match line = Some (start, token) ->
      token <> "-" -> token <> "$n/a$" ->
      exists m,
        py_float (Py.replace "," "" token) = Some (mkdecimal m 2)
        /\ convert_price (Py.replace "," "" token) = Some (mkdecimal m 2))
  /\ (forall price_str,
         py_float price_str = None -> convert_price price_str = None)
  /\ (forall line cat start token,
         price_match (Py.strip line) = Some (start, token) ->
         2 <= String.length
                (normalize_commodity_name (name_segment line start) cat) ->
         exists row,
           parse_smart_row line cat = Some row
           /\ price row = convert_price (Py.replace "," "" token)).
Proof.
  split; [exact number_token_converts|]. split.
  - intros price_str H. unfold convert_price. rewrite H.
    now destruct (negb (is_sentinel price_str)).
  - intros line cat start token Hm Hl.
    rewrite (parse_smart_row_matched _ _ _ _ Hm).
    apply Nat.ltb_ge in Hl. rewrite Hl. eexists. split; reflexivity.
Qed.

(** The token [1,234.50] converts to 1234.50. *)
Lemma C9_matched_number_converts_witness :
  exists m,
    py_float (Py.replace "," "" "1,234.50") = Some (mkdecimal m 2)
    /\ convert_price (Py.replace "," "" "1,234.50") = Some (mkdecimal m 2).
Proof.
  apply (proj1 C9_matched_number_converts "Tomato 1,234.50" 6 "1,234.50").
  - vm_compute. reflexivity.
  - discriminate.
  - discriminate.
Defined.

(** ** Sentinel prices *)

(** C4, as the code has it.  When the trailing token of a line is the
    dash or the no-data marker, the price is absent and nothing fails on
    the token; the line gives a row, with no price, exactly when its
    normalized name has at least 2 characters.  (The token reported by
    [price_match] is the last thing on the line but for whitespace:
    [price_match_trailing].) *)
Theorem C4_sentinel_gives_absent_price
  (line cat : string) (start : nat) (token : string) :
  price_match (Py.strip line) = Some (start, token) ->
  token = "-" \/ token = "$n/a$" ->
  convert_price (Py.replace "," "" token) = None
  /\ (forall row, parse_smart_row line cat = Some row -> price row = None)
  /\ (2 <= String.length
             (normalize_commodity_name (name_segment line start) cat) ->
      exists row, parse_smart_row line cat = Some row /\ price row = None)
  /\ (String.length
        (normalize_commodity_name (name_segment line start) cat) < 2 <->
      parse_smart_row line cat = None).
Proof.
  intros Hm Ht.
  assert (Hc : convert_price (Py.replace "," "" token) = None)
    by (destruct Ht as [->| ->]; reflexivity).
  rewrite (parse_smart_row_matched _ _ _ _ Hm).
  split; [exact Hc|].
  destruct (Nat.ltb_spec
              (String.length
                 (normalize_commodity_name (name_segment line start) cat)) 2)
    as [Hlt|Hge].
  - split; [discriminate|]. split; [lia|]. tauto.
  - split; [intros row H; injection H as <-; exact Hc|].
    split; [intros _; eexists; split; [reflexivity | exact Hc]|].
    split; [lia | discriminate].
Qed.

Lemma C4_sentinel_gives_absent_price_witness :
  convert_price (Py.replace "," "" "$n/a$") = None
  /\ (forall row,
         parse_smart_row "Tomato $n/a$" "LOWLAND VEGETABLES" = Some row ->
         price row = None)
  /\ (2 <= String.length
             (normalize_commodity_name (name_segment "Tomato $n/a$" 6)
                                       "LOWLAND VEGETABLES") ->
      exists row,
        parse_smart_row "Tomato $n/a$" "LOWLAND VEGETABLES" = Some row
        /\ price row = None)
  /\ (String.length
        (normalize_commodity_name (name_segment "Tomato $n/a$" 6)
                                  "LOWLAND VEGETABLES") < 2 <->
      parse_smart_row "Tomato $n/a$" "LOWLAND VEGETABLES" = None).
Proof.
  apply (C4_sentinel_gives_absent_price
           "Tomato $n/a$" "LOWLAND VEGETABLES" 6 "$n/a$").
  - vm_compute. reflexivity.
  - right. reflexivity.
Defined.

(** C4, as stated, fails: the trailing token of the lines [-] and [X -]
    is the dash, and the parser gives no row for them: the name before the
    dash is shorter than 2 characters. *)
Lemma C4_sentinel_counterexample :
  price_match (Py.strip "-") = Some (0, "-")
  /\ parse_smart_row "-" "FRUITS" = None
  /\ price_match (Py.strip "X -") = Some (1, "-")
  /\ parse_smart_row "X -" "FRUITS" = None
  /\ ~ (exists row, parse_smart_row "X -" "FRUITS" = Some row
                    /\ price row = None).
Proof.
  split; [vm_compute; reflexivity|].
  split; [vm_compute; reflexivity|].
  split; [vm_compute; reflexivity|].
  split; [vm_compute; reflexivity|].
  intros (row & H & _). vm_compute in H. discriminate.
Qed.

(* ===================================================================== *)
(** * More of the code *)
(* ===================================================================== *)

(** ** Lines, blank lines and pages *)

Lemma split_char_cons (sep : ascii) (a : string) :
  exists h t, Py.split_char sep a = h :: t.
Proof.
  induction a as [|c a (h & t & IH)]; simpl; [eauto|].
  destruct (Ascii.eqb c sep); [eauto|]. rewrite IH. simpl. eauto.
Qed.

Lemma split_char_app (sep : ascii) (a b : string) :
  Py.split_char sep (a +++ String sep b)
  = Py.split_char sep a ++ Py.split_char sep b.
Proof.
  induction a as [|c a IH]; simpl.
  - now rewrite Ascii.eqb_refl.
  - rewrite IH. destruct (Ascii.eqb c sep); [reflexivity|].
    destruct (split_char_cons sep a) as (h & t & ->). reflexivity.
Qed.

Lemma process_lines_app (st : loop_state) (l1 l2 : list string) :
  process_lines st (l1 ++ l2) = process_lines (process_lines st l1) l2.
Proof. apply fold_left_app. Qed.

Lemma process_line_strip (st : loop_state) (line : string) :
  process_line st (Py.strip line) = process_line st line.
Proof.
  unfold process_line, Py.strip. now rewrite strip_by_idem.
Qed.

Lemma process_line_blank (st : loop_state) (line : string) :
  Py.strip line = "" -> process_line st line = st.
Proof. intros H. destruct st. unfold process_line. now rewrite H. Qed.

(** X1.  Lines before the first category header give nothing: with no
    category seen yet, a run of lines without a label leaves the state of
    the loop as it is, and a text without any label gives no row. *)
Theorem X1_lines_before_first_header_dropped :
  (forall l pre rest,
      Forall no_label pre ->
      process_lines (UNKNOWN, l) (pre ++ rest)
      = process_lines (UNKNOWN, l) rest)
  /\ (forall raw_text,
         Forall no_label (Py.split_char "010" raw_text) ->
         price_data (parse_text_to_json raw_text) = []).
Proof.
  assert (H : forall l pre, Forall no_label pre ->
                            process_lines (UNKNOWN, l) pre = (UNKNOWN, l)).
  { intros l pre. induction 1 as [|line pre Hl _ IH]; [reflexivity|].
    unfold process_lines in *. cbn [fold_left].
    replace (process_line (UNKNOWN, l) line) with (UNKNOWN, l); [exact IH|].
    unfold process_line. unfold no_label in Hl.
    destruct (Py.strip line) as [|a s]; [reflexivity|]. rewrite Hl.
    now destruct (is_noise (String a s)). }
  split.
  - intros l pre rest Hp. now rewrite process_lines_app, H.
  - intros raw_text Hp. simpl. unfold row_processing. now rewrite H.
Qed.

Lemma X1_lines_before_first_header_dropped_witness :
  price_data (parse_text_to_json (text_of ["Mango 120.00"; "Banana 80.00"]))
  = [].
Proof.
  apply (proj2 X1_lines_before_first_header_dropped).
  vm_compute. repeat constructor.
Defined.

(** X2.  The loop sees a line only through its stripped text, and not at
    all when that is empty: stripping every line and leaving out the
    empty ones changes neither the rows nor the current category. *)
Theorem X2_blank_lines_and_padding_ignored
  (st : loop_state) (lines : list string) :
  process_lines st lines
  = process_lines st (filter non_empty (map Py.strip lines)).
Proof.
  unfold process_lines. revert st.
  induction lines as [|line lines IH]; intros st; [reflexivity|].
  cbn [fold_left map filter]. unfold non_empty at 1.
  destruct (String.eqb_spec (Py.strip line) "") as [E|N]; cbn [negb].
  - rewrite (process_line_blank st line E). apply IH.
  - cbn [fold_left]. rewrite process_line_strip. apply IH.
Qed.

Lemma extract_pdf_content_lines (pages : list string) :
  forall st text,
    process_lines st
      (Py.split_char "010"
         (fold_left
            (fun text extracted =>
               match extracted with
               | EmptyString => text
               | _ => text +++ LF +++ extracted +++ LF
               end) pages text))
    = fold_left (fun st page => process_lines st (Py.split_char "010" page))
                pages (process_lines st (Py.split_char "010" text)).
Proof.
  assert (Hb : forall st', process_lines st' (Py.split_char "010" "") = st').
  { intros st'. unfold process_lines. cbn [Py.split_char fold_left].
    now apply process_line_blank. }
  induction pages as [|e pages IH]; intros st text; [reflexivity|].
  cbn [fold_left]. rewrite IH. f_equal.
  destruct e as [|c e]; [now rewrite Hb|].
  change (text +++ LF +++ String c e +++ LF)
    with (text +++ String "010" (String c e +++ String "010" "")).
  now rewrite !split_char_app, !process_lines_app, Hb.
Qed.

(** X3.  Reading a document page by page is reading its text: the rows
    of the text that [extract_pdf_content] assembles are the rows the
    loop gives when it runs over the pages in turn, the current category
    and the rows so far carried from page to page; a page without text
    adds nothing. *)
Theorem X3_pages_parse_in_sequence (pages : list string) :
  price_data (parse_text_to_json (extract_pdf_content pages))
  = snd (fold_left
           (fun st page => process_lines st (Py.split_char "010" page))
           pages (UNKNOWN, [])).
Proof.
  simpl. unfold row_processing, extract_pdf_content.
  now rewrite extract_pdf_content_lines.
Qed.

(** ** What every row of a result holds *)

Section LoopInvariant.

Variable P : PriceRow -> Prop.
Hypothesis P_absorbed : forall e r, P e -> P r -> P (absorb e r).
Hypothesis P_of_parsed :
  forall line cat row,
    In cat KNOWN_CATEGORIES -> parse_smart_row line cat = Some row -> P row.

Lemma fold_in_keeps (l : list PriceRow) (row : PriceRow) :
  Forall P l -> P row -> Forall P (fold_in l row).
Proof.
  intros Hl Hr. unfold fold_in.
  destruct (scan_duplicate row l) as [l'|] eqn:E.
  - revert l' E. induction Hl as [|e l He Hl IH]; simpl; intros l' E;
      [discriminate|].
    destruct (same_key e row).
    + injection E as <-. constructor; auto.
    + destruct (scan_duplicate row l) as [l''|]; [|discriminate].
      injection E as <-. constructor; auto.
  - apply Forall_app. split; [assumption | constructor; auto].
Qed.

Lemma process_line_keeps (st : loop_state) (line : string) :
  loop_invariant P st -> loop_invariant P (process_line st line).
Proof.
  destruct st as [cat l]. unfold loop_invariant, process_line. cbn [fst snd].
  intros [Hc Hl].
  destruct (Py.strip line) as [|a s]; [auto|].
  destruct (detect_category (String a s)) as [c|] eqn:Ed.
  - cbn [fst snd]. split; [|assumption]. right.
    unfold detect_category in Ed. now apply find_some in Ed.
  - destruct (is_noise (String a s)); [auto|].
    destruct (String.eqb_spec cat UNKNOWN) as [E|N]; cbn [negb]; [auto|].
    destruct (parse_smart_row (String a s) cat) as [row|] eqn:Ep; [|auto].
    cbn [fst snd]. split; [assumption|].
    apply fold_in_keeps; [assumption|].
    destruct Hc as [Hc|Hc]; [contradiction|].
    exact (P_of_parsed _ _ _ Hc Ep).
Qed.

Lemma process_lines_keep (lines : list string) (st : loop_state) :
  loop_invariant P st -> loop_invariant P (process_lines st lines).
Proof.
  unfold process_lines. revert st.
  induction lines as [|line lines IH]; intros st H; [assumption|].
  cbn [fold_left]. apply IH. now apply process_line_keeps.
Qed.

Lemma row_processing_keeps (raw_text : string) :
  Forall P (row_processing raw_text).
Proof.
  apply (process_lines_keep _ (UNKNOWN, [])).
  split; [now left | constructor].
Qed.

End LoopInvariant.

Lemma known_categories_stored :
  forall cat, In cat KNOWN_CATEGORIES -> In (clean_category cat) stored_categories.
Proof.
  assert (H : forallb (fun cat =>
                existsb (String.eqb (clean_category cat)) stored_categories)
              KNOWN_CATEGORIES = true) by (vm_compute; reflexivity).
  rewrite forallb_forall in H. intros cat Hin.
  specialize (H cat Hin). apply existsb_exists in H.
  destruct H as (x & Hx & E). apply String.eqb_eq in E. now subst x.
Qed.

Lemma absorb_fields (e r : PriceRow) :
  category (absorb e r) = category e
  /\ commodity (absorb e r) = commodity e
  /\ origin (absorb e r) = origin e
  /\ unit (absorb e r) = unit e
  /\ price (absorb e r)
     = match price e with Some v => Some v | None => price r end.
Proof.
  unfold absorb. destruct (price e) eqn:Ee, (price r) eqn:Er; simpl; auto.
Qed.

(** X4.  The category of every row of a result is one of the 12 stored
    labels: a known label without its LOCAL or IMPORTED prefix, never the
    sentinel; and when the loop ends the current category is the sentinel
    or one of the 13 known labels. *)
Theorem X4_row_category_is_a_stored_label :
  (forall raw_text row,
      In row (price_data (parse_text_to_json raw_text)) ->
      In (category row) stored_categories)
  /\ (forall lines,
         let cat := fst (process_lines (UNKNOWN, []) lines) in
         cat = UNKNOWN \/ In cat KNOWN_CATEGORIES).
Proof.
  assert (Ha : forall e r : PriceRow,
             In (category e) stored_categories ->
             In (category r) stored_categories ->
             In (category (absorb e r)) stored_categories).
  { intros e r He _. now rewrite (proj1 (absorb_fields e r)). }
  assert (Hp : forall line cat row,
             In cat KNOWN_CATEGORIES ->
             parse_smart_row line cat = Some row ->
             In (category row) stored_categories).
  { intros line cat row Hc H.
    destruct (parse_smart_row_some _ _ _ H) as (start & token & _ & _ & ->).
    now apply known_categories_stored. }
  split.
  - intros raw_text row Hin. simpl in Hin.
    pose proof (row_processing_keeps _ Ha Hp raw_text) as HF.
    rewrite Forall_forall in HF. now apply HF.
  - intros lines.
    exact (proj1 (process_lines_keep _ Ha Hp lines (UNKNOWN, [])
                    (conj (or_introl eq_refl) (Forall_nil _)))).
Qed.

Lemma X4_row_category_is_a_stored_label_witness :
  In (category scenario_A_actual) stored_categories.
Proof.
  apply (proj1 X4_row_category_is_a_stored_label scenario_A_with_header).
  vm_compute. left. reflexivity.
Defined.





(** ** The result as a function of the rows of the lines *)

Lemma merge_rows_emitted (os : list (option PriceRow)) (l : list PriceRow) :
  fold_left merge_row os l = fold_left fold_in (emitted os) l.
Proof.
  revert l. induction os as [|[r|] os IH]; intros l; simpl; auto.
Qed.

Lemma same_key_sym (a b : PriceRow) : same_key a b = same_key b a.
Proof.
  destruct (same_key b a) eqn:E.
  - apply same_key_eq. apply same_key_eq in E. congruence.
  - apply same_key_neq. apply same_key_neq in E. congruence.
Qed.

Lemma has_key_keys (l1 l2 : list PriceRow) (row : PriceRow) :
  map key l1 = map key l2 -> has_key l1 row = has_key l2 row.
Proof.
  unfold has_key. revert l2.
  induction l1 as [|a l1 IH]; intros [|b l2] H; simpl in *;
    try discriminate; [reflexivity|].
  injection H as Hc Hm Ho H.
  assert (Hk : key a = key b) by (unfold key; congruence).
  rewrite (IH l2 H). f_equal.
  rewrite (same_key_sym a row), (same_key_sym b row).
  now apply same_key_congr.
Qed.

Lemma scan_duplicate_has_key (row : PriceRow) (l : list PriceRow) :
  has_key l row = match scan_duplicate row l with
                  | Some _ => true
                  | None => false
                  end.
Proof.
  unfold has_key. induction l as [|e l IH]; simpl; [reflexivity|].
  destruct (same_key e row); simpl; [reflexivity|].
  rewrite IH. now destruct (scan_duplicate row l).
Qed.

(** A row folded in leaves the keys as they are, or adds its own at the
    end. *)
Lemma fold_in_keys (l : list PriceRow) (row : PriceRow) :
  map key (fold_in l row)
  = if has_key l row then map key l else map key l ++ [key row].
Proof.
  rewrite scan_duplicate_has_key. unfold fold_in.
  destruct (scan_duplicate row l) as [l'|] eqn:E.
  - exact (scan_duplicate_keys _ _ _ E).
  - now rewrite map_app.
Qed.

Lemma has_key_snoc (l : list PriceRow) (r x : PriceRow) :
  has_key (l ++ [r]) x = has_key l x || same_key r x.
Proof.
  unfold has_key. rewrite existsb_app. simpl. now rewrite orb_false_r.
Qed.

Lemma has_key_congr (l : list PriceRow) (r x : PriceRow) :
  key r = key x -> has_key l r = has_key l x.
Proof.
  intros E. unfold has_key. induction l as [|a l IH]; simpl; [reflexivity|].
  now rewrite IH, (same_key_congr a r x E).
Qed.

Lemma has_key_fold_in (l : list PriceRow) (r x : PriceRow) :
  has_key (fold_in l r) x = has_key l x || same_key r x.
Proof.
  destruct (has_key l r) eqn:E.
  - rewrite (has_key_keys (fold_in l r) l x)
      by (now rewrite fold_in_keys, E).
    destruct (same_key r x) eqn:Ex; [|now rewrite orb_false_r].
    rewrite orb_true_r. rewrite <- E. symmetry.
    apply has_key_congr. now apply same_key_eq.
  - rewrite (has_key_keys (fold_in l r) (l ++ [r]) x).
    + apply has_key_snoc.
    + now rewrite fold_in_keys, E, map_app.
Qed.

Lemma fold_in_all_keys (rows l : list PriceRow) :
  map key (fold_left fold_in rows l)
  = map key l
    ++ map key (filter (fun x => negb (has_key l x)) (first_of_each_key rows)).
Proof.
  revert l. induction rows as [|r rows IH]; intros l; simpl.
  - now rewrite app_nil_r.
  - rewrite IH, fold_in_keys.
    destruct (has_key l r) eqn:E; simpl.
    + f_equal. f_equal. rewrite filter_filter. apply filter_ext. intros x.
      rewrite has_key_fold_in.
      destruct (same_key x r) eqn:Ex; simpl.
      * now rewrite (same_key_sym r x), Ex, orb_true_r.
      * now rewrite (same_key_sym r x), Ex, orb_false_r.
    + rewrite <- app_assoc. simpl. do 3 f_equal.
      rewrite filter_filter. apply filter_ext. intros x.
      rewrite has_key_fold_in, negb_orb, (same_key_sym r x).
      apply andb_comm.
Qed.

(** X6.  The rows of a result stand in the order in which their keys are
    first seen: the keys of [price_data] are the keys of the first row of
    each key among the rows the lines parse to.  So no key is lost, none
    is invented and none comes twice. *)
Theorem X6_rows_in_first_seen_order (raw_text : string) :
  map key (price_data (parse_text_to_json raw_text))
  = map key (first_of_each_key (emitted (line_rows raw_text))).
Proof.
  simpl. rewrite row_processing_rows, merge_rows_emitted, fold_in_all_keys.
  simpl. f_equal. induction (first_of_each_key _) as [|x l IH]; simpl;
    congruence.
Qed.

Lemma accepted_merged (row : PriceRow) (os : list (option PriceRow))
  (l : list PriceRow) :
  accepted row (fold_left merge_row os l)
  = fold_left (accept row) os (accepted row l).
Proof.
  revert l. induction os as [|[r|] os IH]; intros l; simpl; auto.
  rewrite IH. f_equal.
  destruct (same_key r row) eqn:E.
  - apply same_key_eq in E. apply (accepted_fold_in_same _ _ _ E).
  - apply same_key_neq in E. apply (accepted_fold_in_other _ _ _ E).
Qed.

Lemma set_price_set_price (a : PriceRow) (p q : option decimal) :
  set_price (set_price a p) q = set_price a q.
Proof. reflexivity. Qed.

Lemma set_price_same (a : PriceRow) : set_price a (price a) = a.
Proof. now destruct a. Qed.

Lemma absorb_set_price (a r : PriceRow) :
  absorb a r
  = set_price a (match price a with Some v => Some v | None => price r end).
Proof.
  unfold absorb. destruct (price a) eqn:Ea, (price r) eqn:Er;
    try reflexivity; now rewrite <- Ea, set_price_same.
Qed.

(** The accepted row of a key after a run of lines: the row accepted
    before, or else the first row of the key, with the first present
    price. *)
Lemma accept_all (row : PriceRow) (os : list (option PriceRow)) :
  forall acc,
    fold_left (accept row) os acc
    = match acc with
      | Some a =>
          Some (set_price a
                  (match price a with
                   | Some v => Some v
                   | None => first_price row (emitted os)
                   end))
      | None =>
          match find (fun r => same_key r row) (emitted os) with
          | Some r0 => Some (set_price r0 (first_price row (emitted os)))
          | None => None
          end
      end.
Proof.
  induction os as [|[r|] os IH]; intros acc; cbn [fold_left emitted].
  - destruct acc as [a|]; [|reflexivity]. simpl.
    destruct (price a) eqn:E; now rewrite <- E, set_price_same.
  - rewrite IH. unfold accept. cbn [find first_price].
    destruct (same_key r row) eqn:E.
    + destruct acc as [a|].
      * rewrite absorb_set_price, set_price_set_price. f_equal. f_equal.
        cbn [price set_price].
        destruct (price a); [reflexivity|]. now destruct (price r).
      * reflexivity.
    + reflexivity.
  - apply IH.
Qed.

Lemma accepted_self (l : list PriceRow) (e : PriceRow) :
  NoDup (map key l) -> In e l -> accepted e l = Some e.
Proof.
  intros Hn Hin.
  destruct (accepted_exists e e l Hin eq_refl) as [x Hx].
  destruct (accepted_in _ _ _ Hx) as [Hinx Hk].
  now rewrite (NoDup_map_eq key l x e Hn Hinx Hin Hk) in Hx.
Qed.

(** X7.  A row of a result is the first row of its key among the rows
    the lines parse to, with one change at most: its price is the first
    present price among the rows of that key, and absent when none of
    them has a price.  The unit of a later row of the key is never
    used. *)
Theorem X7_row_is_first_of_key_with_first_price
  (raw_text : string) (e : PriceRow) :
  In e (price_data (parse_text_to_json raw_text)) ->
  exists first,
    find (fun r => same_key r e) (emitted (line_rows raw_text)) = Some first
    /\ e = set_price first (first_price e (emitted (line_rows raw_text))).
Proof.
  intros Hin. simpl in Hin.
  pose proof (accepted_self _ e (row_processing_unique raw_text) Hin) as Ha.
  rewrite row_processing_rows, accepted_merged, accept_all in Ha.
  cbn [accepted find] in Ha.
  destruct (find (fun r => same_key r e) (emitted (line_rows raw_text)))
    as [first|]; [|discriminate].
  injection Ha as Ha. eauto.
Qed.

Lemma X7_row_is_first_of_key_with_first_price_witness :
  exists first,
    find (fun r => same_key r (mango_at (mkdecimal 1000 2)))
         (emitted (line_rows three_mango_lines)) = Some first
    /\ mango_at (mkdecimal 1000 2)
       = set_price first
           (first_price (mango_at (mkdecimal 1000 2))
                        (emitted (line_rows three_mango_lines))).
Proof.
  apply (X7_row_is_first_of_key_with_first_price three_mango_lines).
  vm_compute. left. reflexivity.
Defined.

(** ** Folding a row in, twice *)

Lemma scan_duplicate_at (row x : PriceRow) (l1 l2 : list PriceRow) :
  Forall (fun e => key e <> key row) l1 ->
  key x = key row ->
  scan_duplicate row (l1 ++ x :: l2) = Some (l1 ++ absorb x row :: l2).
Proof.
  intros Hl1 Hx. induction Hl1 as [|e l1 He _ IH]; simpl.
  - apply same_key_eq in Hx. now rewrite Hx.
  - apply same_key_neq in He. now rewrite He, IH.
Qed.

Lemma absorb_absorb (e r : PriceRow) : absorb (absorb e r) r = absorb e r.
Proof.
  unfold absorb. destruct (price e) eqn:Ee, (price r) eqn:Er; simpl;
    rewrite ?Ee, ?Er; reflexivity.
Qed.

(** X8.  Folding the same row in a second time changes nothing; and
    folding a row in never removes or moves a row: the keys before are a
    prefix of the keys after, one longer at most. *)
Theorem X8_fold_in_idempotent_and_monotone
  (l : list PriceRow) (row : PriceRow) :
  fold_in (fold_in l row) row = fold_in l row
  /\ (map key (fold_in l row) = map key l
      \/ map key (fold_in l row) = map key l ++ [key row]).
Proof.
  split.
  - unfold fold_in at 2.
    destruct (scan_duplicate row l) as [l'|] eqn:E.
    + assert (Hk : has_key l row = true)
        by (now rewrite scan_duplicate_has_key, E).
      unfold has_key in Hk. apply existsb_exists in Hk.
      destruct Hk as (x & Hin & Hx). apply same_key_eq in Hx.
      destruct (accepted_exists row x l Hin Hx) as [existing Ha].
      destruct (scan_duplicate_found _ _ _ Ha) as (l1 & l2 & -> & Hl1 & Es).
      rewrite Es in E. injection E as <-.
      unfold fold_in. rewrite scan_duplicate_at; auto.
      * now rewrite Es, absorb_absorb.
      * rewrite key_absorb. now apply accepted_in in Ha.
    + unfold fold_in.
      rewrite (scan_duplicate_at row row l []); [| |reflexivity].
      * rewrite E. unfold absorb. now destruct (price row).
      * apply Forall_forall. intros e He Hk.
        apply (scan_duplicate_none _ _ E). rewrite <- Hk. now apply in_map.
  - rewrite fold_in_keys. destruct (has_key l row); auto.
Qed.

(** ** The matcher is complete *)

Section MatcherComplete.

Import Re ReSem.

Variable R : Type.




End MatcherComplete.

Section Search.

Import Re ReSem.





End Search.

(** ** Last characters *)

Lemma last_is_app (f : ascii -> bool) (a b : string) :
  b <> "" -> last_is f (a +++ b) = last_is f b.
Proof.
  intros Hb. induction a as [|c a IH]; [reflexivity|].
  cbn [String.append last_is]. rewrite IH.
  destruct (a +++ b) eqn:E; [|reflexivity].
  apply sapp_empty in E. destruct E. contradiction.
Qed.

Lemma last_is_all (f : ascii -> bool) (s : string) :
  s <> "" -> all_chars f s = true -> last_is f s = true.
Proof.
  induction s as [|c s IH]; [congruence|]. intros _ H. simpl in H.
  apply andb_true_iff in H. destruct H as [Hc Hs].
  destruct s as [|d s]; [exact Hc|]. apply IH; [discriminate | exact Hs].
Qed.

Lemma last_is_weaken (f g : ascii -> bool) (s : string) :
  (forall c, f c = true -> g c = true) ->
  last_is f s = true -> last_is g s = true.
Proof.
  intros Hfg. induction s as [|c s IH]; [discriminate|].
  destruct s as [|d s]; [apply Hfg | exact IH].
Qed.

Lemma last_is_disjoint (f g : ascii -> bool) (s : string) :
  (forall c, f c = true -> g c = false) ->
  last_is f s = true -> last_is g s = false.
Proof.
  intros Hfg. induction s as [|c s IH]; [discriminate|].
  destruct s as [|d s]; [apply Hfg | exact IH].
Qed.


Lemma blank_and_not (t : string) :
  all_chars Py.is_space t = true -> all_chars not_space t = true -> t = "".
Proof.
  destruct t as [|c t]; [reflexivity|]. simpl. unfold not_space at 1.
  destruct (Py.is_space c); simpl; discriminate.
Qed.

(** Two ways of cutting one string in two. *)
Lemma sapp_eq_sapp (a b c d : string) :
  a +++ b = c +++ d ->
  (exists e, a = c +++ e /\ d = e +++ b)
  \/ (exists e, c = a +++ e /\ b = e +++ d).
Proof.
  revert c. induction a as [|x a IH]; intros c H.
  - right. exists c. auto.
  - destruct c as [|y c].
    + left. exists (String x a). auto.
    + simpl in H. injection H as -> H.
      destruct (IH c H) as [(e & -> & ->)|(e & -> & ->)];
        [left | right]; exists e; auto.
Qed.

(** ** Tokens *)

Lemma token_char_not_space (c : ascii) :
  token_char c = true -> not_space c = true.
Proof.
  assert (H : forallb (fun c => implb (token_char c) (not_space c)) all_ascii
              = true) by (vm_compute; reflexivity).
  rewrite forallb_forall in H. specialize (H c (in_all_ascii c)).
  intros E. now rewrite E in H.
Qed.

Lemma all_chars_weaken (f g : ascii -> bool) (s : string) :
  (forall c, f c = true -> g c = true) ->
  all_chars f s = true -> all_chars g s = true.
Proof.
  intros Hfg. induction s as [|c s IH]; [reflexivity|]. simpl.
  rewrite !andb_true_iff. intros [Hc Hs]. auto.
Qed.

Lemma digit_token_char (a : ascii) : Py.is_digit a = true -> token_char a = true.
Proof. intros H. unfold token_char. now rewrite H. Qed.

Lemma lang_comma_groups_chars (w : string) :
  ReSem.star
    (ReSem.lang
       (Re.Seq (Re.lit ",") (Re.Seq Re.digit (Re.Seq Re.digit Re.digit)))) w ->
  all_chars token_char w = true.
Proof.
  induction 1 as [|w1 w2 H1 _ IH]; [reflexivity|].
  destruct H1 as (u & v & -> & (x & -> & Hx) & v1 & v2 & -> & (a & -> & Ha)
                  & v3 & v4 & -> & (b & -> & Hb) & (c & -> & Hc)).
  apply Ascii.eqb_eq in Hx. subst x. simpl.
  now rewrite (digit_token_char a Ha), (digit_token_char b Hb),
    (digit_token_char c Hc), IH.
Qed.

(** A word of the number pattern: token characters, then a point and two
    digits. *)
Lemma lang_number_end (w : string) :
  ReSem.lang number_re w ->
  exists body x y,
    w = body +++ String "." (String x (String y ""))
    /\ all_chars token_char body = true
    /\ body <> ""
    /\ Py.is_digit x = true /\ Py.is_digit y = true.
Proof.
  intros (w1 & w2 & -> & H1 & w3 & w4 & -> & H3 & w5 & w6 & ->
          & (d & -> & Hd) & w7 & w8 & -> & (x & -> & Hx) & (y & -> & Hy)).
  apply Ascii.eqb_eq in Hd. subst d.
  apply lang_digits_1_3 in H1. destruct H1 as (D1 & _ & L1).
  apply lang_comma_groups_chars in H3.
  exists (w1 +++ w3), x, y. rewrite sapp_assoc. simpl.
  repeat split; auto.
  - rewrite all_chars_app, H3, andb_true_r.
    exact (all_chars_weaken _ _ _ digit_token_char D1).
  - intros E. apply sapp_empty in E. destruct E as [-> _]. simpl in L1. lia.
Qed.

(** A token is not empty, has no whitespace in it and ends in a digit, a
    dollar sign or a dash. *)
Lemma lang_token_chars (token : string) :
  ReSem.lang token_re token ->
  token <> ""
  /\ all_chars not_space token = true
  /\ last_is token_end token = true.
Proof.
  intros H. destruct (lang_token_cases _ H) as [Hn|[->| ->]];
    [|repeat split; discriminate|repeat split; discriminate].
  destruct (lang_number_end _ Hn) as (body & x & y & -> & Hb & _ & Hx & Hy).
  repeat split.
  - destruct body; discriminate.
  - rewrite all_chars_app.
    rewrite (all_chars_weaken _ _ _ token_char_not_space Hb). simpl.
    rewrite (token_char_not_space x (digit_token_char x Hx)).
    now rewrite (token_char_not_space y (digit_token_char y Hy)).
  - rewrite last_is_app by discriminate. simpl. unfold token_end.
    now rewrite Hy.
Qed.


(** ** The price pattern finds the last word of a line *)

Section PricePattern.

Import Re ReSem.







End PricePattern.

(** ** Stripping, once more *)




Lemma rstrip_by_last (f : ascii -> bool) (s : string) :
  Py.rstrip_by f s = ""
  \/ last_is (fun c => negb (f c)) (Py.rstrip_by f s) = true.
Proof.
  induction s as [|c s IH]; simpl; [now left|].
  destruct (Py.rstrip_by f s) as [|d t].
  - destruct (f c) eqn:E; [now left|]. right. simpl. now rewrite E.
  - right. destruct IH as [IH|IH]; [discriminate|]. exact IH.
Qed.


(** A stripped line does not end in whitespace. *)
Lemma strip_tail_blank (s a b : string) :
  Py.strip s = a +++ b -> all_chars Py.is_space b = true -> b = "".
Proof.
  intros E Hb. destruct b as [|x b]; [reflexivity|]. exfalso.
  unfold Py.strip, Py.strip_by in E.
  destruct (rstrip_by_last Py.is_space (Py.lstrip_by Py.is_space s))
    as [H|H]; rewrite E in H.
  - apply sapp_empty in H. destruct H. discriminate.
  - rewrite last_is_app in H by discriminate.
    assert (H2 : last_is Py.is_space (String x b) = true)
      by (apply last_is_all; [discriminate | assumption]).
    rewrite (last_is_disjoint Py.is_space _ _
               (fun c Hc => eq_trans (f_equal negb Hc) eq_refl) H2) in H.
    discriminate.
Qed.

(** ** Which lines the row parser reads *)





(** X10.  The row parser gives a row only for a line whose stripped text
    ends in a digit, a dollar sign or a dash; and a row with a price only
    for one that ends in a point and two digits. *)
Theorem X10_row_only_from_trailing_token
  (line cat : string) (row : PriceRow) :
  parse_smart_row line cat = Some row ->
  last_is token_end (Py.strip line) = true
  /\ (price row <> None ->
      exists body x y,
        Py.strip line = body +++ String "." (String x (String y ""))
        /\ Py.is_digit x = true /\ Py.is_digit y = true).
Proof.
  intros H.
  destruct (parse_smart_row_some _ _ _ H) as (start & token & Hm & _ & ->).
  pose proof (price_match_token _ _ _ Hm) as Lt.
  destruct (price_match_trailing _ _ _ Hm)
    as (sep & trailing & El & _ & _ & Htr).
  assert (Etr : trailing = "").
  { apply (strip_tail_blank line
             (Py.take start (Py.strip line) +++ sep +++ token) trailing);
      [|exact Htr].
    rewrite El at 1. now rewrite !sapp_assoc. }
  subst trailing. rewrite sapp_nil_r in El.
  destruct (lang_token_chars _ Lt) as (Hne & _ & Hend).
  split.
  - rewrite El, <- sapp_assoc, last_is_app by assumption. exact Hend.
  - unfold built_row. cbn [price]. intros Hp.
    destruct (lang_token_cases _ Lt) as [Ln|[->| ->]];
      [|now contradiction Hp|now contradiction Hp].
    destruct (lang_number_end _ Ln) as (body & x & y & -> & _ & _ & Hx & Hy).
    exists (Py.take start (Py.strip line) +++ sep +++ body), x, y.
    split; [|auto]. rewrite El at 1. now rewrite !sapp_assoc.
Qed.

Lemma X10_row_only_from_trailing_token_witness :
  last_is token_end (Py.strip "Tomato 45.00  ") = true
  /\ (price (mkPriceRow "LOWLAND VEGETABLES" "Tomato" (Some "Local") None
                        (Some (mkdecimal 4500 2))) <> None ->
      exists body x y,
        Py.strip "Tomato 45.00  "
        = body +++ String "." (String x (String y ""))
        /\ Py.is_digit x = true /\ Py.is_digit y = true).
Proof.
  apply (X10_row_only_from_trailing_token "Tomato 45.00  "
           "LOWLAND VEGETABLES").
  vm_compute. reflexivity.
Defined.

(** ** Where a market block can come from *)

Section MarketBlock.

Import Re ReSem.




End MarketBlock.



(** ** The newest link *)

Lemma datetime_ltb_lex (a b : datetime) :
  datetime_ltb a b = true
  <-> year a < year b
      \/ (year a = year b
          /\ (month a < month b
              \/ (month a = month b /\ day a < day b))).
Proof.
  unfold datetime_ltb.
  rewrite !orb_true_iff, !andb_true_iff, !orb_true_iff, !andb_true_iff,
    !Nat.ltb_lt, !Nat.eqb_eq.
  tauto.
Qed.

Lemma datetime_ltb_false (a b : datetime) :
  datetime_ltb a b = false
  <-> a = b \/ datetime_ltb b a = true.
Proof.
  rewrite <- not_true_iff_false, !datetime_ltb_lex.
  destruct a as [ya ma da], b as [yb mb db]; simpl.
  split.
  - intros H.
    destruct (Nat.eq_dec ya yb) as [->|];
      [destruct (Nat.eq_dec ma mb) as [->|];
       [destruct (Nat.eq_dec da db) as [->|]|]|];
      [now left | right; lia ..].
  - intros [E|H]; [injection E as -> -> ->|]; lia.
Qed.

Lemma make_datetime_some (y m d : nat) (t : datetime) :
  make_datetime y m d = Some t ->
  t = mkdatetime y m d
  /\ 1 <= y < 100 * 100 /\ 1 <= m <= 12 /\ 1 <= d <= days_in_month y m.
Proof.
  unfold make_datetime.
  destruct (_ && _) eqn:E; [|discriminate].
  intros [= <-].
  rewrite !andb_true_iff, !Nat.leb_le, Nat.ltb_lt in E.
  split; [reflexivity | lia].
Qed.

Lemma first_some_some {A B : Type} (f : A -> option B) (l : list A) (b : B) :
  first_some f l = Some b -> exists a, In a l /\ f a = Some b.
Proof.
  induction l as [|a l IH]; simpl; [discriminate|].
  destruct (f a) as [b'|] eqn:E.
  - intros [= <-]. eauto.
  - intros H. destruct (IH H) as (a' & Ha & Hf). eauto.
Qed.

Lemma strptime_valid (data_string format : string) (t : datetime) :
  strptime data_string format = Some t ->
  1 <= year t < 100 * 100 /\ 1 <= month t <= 12
  /\ 1 <= day t <= days_in_month (year t) (month t).
Proof.
  unfold strptime.
  destruct (compile_format format) as [items|]; [|discriminate].
  destruct (match_items _ _ _) as [[f [|? ?]]|]; try discriminate.
  intros H. apply make_datetime_some in H. destruct H as (-> & H). exact H.
Qed.

Lemma parse_date_valid (filename : string) (t : datetime) :
  parse_date_from_filename filename = Some t ->
  1 <= year t < 100 * 100 /\ 1 <= month t <= 12
  /\ 1 <= day t <= days_in_month (year t) (month t).
Proof.
  unfold parse_date_from_filename.
  destruct (Re.search _ _) as [m|]; [|discriminate].
  destruct (Re.m_group1 m) as [date_str|]; [|discriminate].
  intros H. apply first_some_some in H. destruct H as (fmt & _ & H).
  eapply strptime_valid, H.
Qed.

Lemma after_min (filename : string) (t : datetime) :
  parse_date_from_filename filename = Some t ->
  datetime_ltb datetime_min t = false -> t = datetime_min.
Proof.
  intros H L. apply parse_date_valid in H.
  apply datetime_ltb_false in L. destruct L as [E|L]; [auto|].
  apply datetime_ltb_lex in L. simpl in L. lia.
Qed.

Section NewestLink.

Variable urljoin : string -> string -> string.

Lemma consider_newest_of (seen : list string) (st : datetime * option newest)
  (h : string) :
  newest_of urljoin seen st ->
  newest_of urljoin (seen ++ [h]) (consider urljoin st h).
Proof.
  destruct st as [latest [link|]]; unfold newest_of, consider;
    cbn [fst snd].
  - intros (-> & Hmin & before & h0 & after & -> & Eh & Ed & Hb & Ha).
    destruct (parse_date_from_filename (f_name h)) as [t|] eqn:E.
    + destruct (datetime_ltb (date link) t) eqn:L; cbn [fst snd date href].
      * split; [reflexivity|].
        split.
        { apply datetime_ltb_lex. apply datetime_ltb_lex in Hmin, L.
          simpl in *. lia. }
        exists (before ++ h0 :: after), h, [].
        split; [now rewrite <- app_assoc|].
        split; [reflexivity|]. split; [exact E|].
        split; [|intros ? ? []].
        intros h' t' Hin Ht.
        apply in_app_or in Hin. destruct Hin as [Hin|[<-|Hin]].
        -- pose proof (Hb _ _ Hin Ht) as Hlt.
           apply datetime_ltb_lex. apply datetime_ltb_lex in Hlt, L. lia.
        -- rewrite Ed in Ht. injection Ht as <-. exact L.
        -- pose proof (Ha _ _ Hin Ht) as Hge.
           apply datetime_ltb_false in Hge.
           destruct Hge as [<-|Hge]; [exact L|].
           apply datetime_ltb_lex. apply datetime_ltb_lex in Hge, L. lia.
      * split; [reflexivity|]. split; [exact Hmin|].
        exists before, h0, (after ++ [h]).
        split; [now rewrite <- app_assoc|].
        split; [exact Eh|]. split; [exact Ed|]. split; [exact Hb|].
        intros h' t' Hin Ht.
        apply in_app_or in Hin. destruct Hin as [Hin|[<-|[]]]; eauto.
        rewrite E in Ht. injection Ht as <-. exact L.
    + split; [reflexivity|]. split; [exact Hmin|].
      exists before, h0, (after ++ [h]).
      split; [now rewrite <- app_assoc|].
      split; [exact Eh|]. split; [exact Ed|]. split; [exact Hb|].
      intros h' t' Hin Ht.
      apply in_app_or in Hin. destruct Hin as [Hin|[<-|[]]]; eauto.
      congruence.
  - intros (-> & Hs).
    destruct (parse_date_from_filename (f_name h)) as [t|] eqn:E.
    + destruct (datetime_ltb datetime_min t) eqn:L; cbn [fst snd date href].
      * split; [reflexivity|]. split; [exact L|].
        exists seen, h, []. repeat split; auto; try (intros ? ? []).
        intros h' t' Hin Ht.
        pose proof (Hs _ _ Hin Ht) as Hm.
        apply (after_min _ _ Ht) in Hm. now subst t'.
      * split; [reflexivity|].
        intros h' t' Hin Ht.
        apply in_app_or in Hin. destruct Hin as [Hin|[<-|[]]]; eauto.
        congruence.
    + split; [reflexivity|].
      intros h' t' Hin Ht.
      apply in_app_or in Hin. destruct Hin as [Hin|[<-|[]]]; eauto.
      congruence.
Qed.

Lemma fold_consider_newest_of (links seen : list string)
  (st : datetime * option newest) :
  newest_of urljoin seen st ->
  newest_of urljoin (seen ++ links) (fold_left (consider urljoin) links st).
Proof.
  revert seen st. induction links as [|h links IH]; intros seen st H.
  - now rewrite app_nil_r.
  - simpl. replace (seen ++ h :: links) with ((seen ++ [h]) ++ links)
      by now rewrite <- app_assoc.
    apply IH, consider_newest_of, H.
Qed.

Lemma newest_link_newest_of (links : list string) :
  newest_of urljoin links
    (fold_left (consider urljoin) links (datetime_min, None)).
Proof.
  apply (fold_consider_newest_of links []).
  split; [reflexivity | intros ? ? []].
Qed.

End NewestLink.

(** X12.  The link that is fetched is the first of the bulletin links
    with the greatest date: its file name carries its date, every
    bulletin link before it that carries a date carries an earlier one,
    and none after it carries a later one. *)
Theorem X12_selected_link_is_first_newest
  (urljoin : string -> string -> string) (hrefs : list string)
  (link : newest) :
  select_link urljoin hrefs = Selected link ->
  exists before h after,
    filter is_pdf_link hrefs = before ++ h :: after
    /\ href link = urljoin BASE_URL h
    /\ parse_date_from_filename (f_name h) = Some (date link)
    /\ (forall h' t,
           In h' before ->
           parse_date_from_filename (f_name h') = Some t ->
           datetime_ltb t (date link) = true)
    /\ (forall h' t,
           In h' after ->
           parse_date_from_filename (f_name h') = Some t ->
           datetime_ltb (date link) t = false).
Proof.
  unfold select_link, newest_link.
  pose proof (newest_link_newest_of urljoin (filter is_pdf_link hrefs)) as H.
  unfold newest_of in H.
  destruct (filter is_pdf_link hrefs) as [|h0 links] eqn:E; [discriminate|].
  destruct (snd (fold_left _ _ _)) as [l|]; [|discriminate].
  intros [= <-]. destruct H as (_ & _ & H). exact H.
Qed.

Lemma X12_selected_link_is_first_newest_witness :
  exists before h after,
    filter is_pdf_link
      [ "/files/DPI-January-5-2024.pdf"; "/about.html";
        "/files/Daily-Price-Index-March-2-2024.pdf";
        "/files/dpi-mar-02-2024.pdf"; "/files/DPI-latest.pdf" ]
    = before ++ h :: after
    /\ href (mknewest
               (BASE_URL +++ "/files/Daily-Price-Index-March-2-2024.pdf")
               (mkdatetime 2024 3 2))
       = BASE_URL +++ h
    /\ parse_date_from_filename (f_name h)
       = Some (date (mknewest
                       (BASE_URL
                        +++ "/files/Daily-Price-Index-March-2-2024.pdf")
                       (mkdatetime 2024 3 2)))
    /\ (forall h' t,
           In h' before ->
           parse_date_from_filename (f_name h') = Some t ->
           datetime_ltb t
             (date (mknewest
                      (BASE_URL
                       +++ "/files/Daily-Price-Index-March-2-2024.pdf")
                      (mkdatetime 2024 3 2))) = true)
    /\ (forall h' t,
           In h' after ->
           parse_date_from_filename (f_name h') = Some t ->
           datetime_ltb
             (date (mknewest
                      (BASE_URL
                       +++ "/files/Daily-Price-Index-March-2-2024.pdf")
                      (mkdatetime 2024 3 2))) t = false).
Proof.
  apply (X12_selected_link_is_first_newest
           (fun base url => base +++ url)
           [ "/files/DPI-January-5-2024.pdf"; "/about.html";
             "/files/Daily-Price-Index-March-2-2024.pdf";
             "/files/dpi-mar-02-2024.pdf"; "/files/DPI-latest.pdf" ]).
  vm_compute. reflexivity.
Defined.

(** X13.  When no file is fetched: the first refusal is given exactly
    when no link of the page is a bulletin link; the second exactly when
    there are bulletin links and each of them carries no date, or the
    least date there is, 1 January of the year 1, which is never taken
    for a date. *)
Theorem X13_when_no_link_is_selected
  (urljoin : string -> string -> string) (hrefs : list string) :
  (select_link urljoin hrefs = NoPdfLinks
   <-> forall h, In h hrefs -> is_pdf_link h = false)
  /\ (select_link urljoin hrefs = NoDates
      <-> (exists h, In h hrefs /\ is_pdf_link h = true)
          /\ forall h,
               In h hrefs -> is_pdf_link h = true ->
               parse_date_from_filename (f_name h) = None
               \/ parse_date_from_filename (f_name h) = Some datetime_min).
Proof.
  unfold select_link, newest_link.
  pose proof (newest_link_newest_of urljoin (filter is_pdf_link hrefs)) as H.
  unfold newest_of in H.
  assert (Hf : forall h, In h (filter is_pdf_link hrefs)
                         <-> In h hrefs /\ is_pdf_link h = true)
    by (intros h; apply filter_In).
  destruct (filter is_pdf_link hrefs) as [|h0 links] eqn:E.
  - split; split; try discriminate.
    + intros _ h Hin. destruct (is_pdf_link h) eqn:Eh; [|reflexivity].
      destruct (proj2 (Hf h) (conj Hin Eh)).
    + intros _. reflexivity.
    + intros ((h & Hin & Eh) & _). destruct (proj2 (Hf h) (conj Hin Eh)).
  - split; split; try discriminate.
    + destruct (snd (fold_left _ _ _)); discriminate.
    + intros Hall. destruct (proj1 (Hf h0) (or_introl eq_refl)) as [Hin Eh].
      rewrite (Hall _ Hin) in Eh. discriminate.
    + destruct (snd (fold_left _ _ _)) as [l|]; [discriminate|].
      intros _. destruct H as (_ & H).
      split.
      * exists h0. apply Hf. now left.
      * intros h Hin Eh.
        destruct (parse_date_from_filename (f_name h)) as [t|] eqn:Et;
          [right | now left].
        f_equal. apply (after_min _ _ Et).
        apply (H h t); [apply Hf; auto | exact Et].
    + intros (_ & Hall).
      destruct (snd (fold_left _ _ _)) as [l|]; [|reflexivity].
      destruct H as (_ & Hmin & before & h & after & El & _ & Ed & _).
      assert (Hin : In h (h0 :: links))
        by (rewrite El; apply in_or_app; right; now left).
      apply Hf in Hin. destruct Hin as [Hin Eh].
      destruct (Hall h Hin Eh) as [En|En]; rewrite En in Ed;
        [discriminate|].
      injection Ed as Ed. rewrite <- Ed in Hmin. discriminate.
Qed.
